(** * ilinks: the link-graph construction pipeline

    A shallow embedding of [core/link_extractor.py], [core/api_client.py],
    [core/data_processor.py] and [main.py], followed by the properties of the
    pipeline that the specification states about them.

    Conventions of the embedding.
    - A Python [str] is a [string]; each character is read as the code point
      of the same number (0..255), so the model covers the strings of the
      Latin-1 range and classifies every one of its characters as CPython
      does ([str.isspace], [str.isdigit], [str.lower]).
    - A Python [int] is a [Z].
    - A call that may raise returns a [result]; code that logs, sleeps or
      talks to the network runs in the monad [M], whose state is the number of
      HTTP requests sent so far and the trace of log records and sleeps.
    - The network is a function of the request number and the URL, so any
      server behaviour, transient failures included, is an instance. *)

From Stdlib Require Import ZArith List Bool Ascii String Lia Permutation Sorted.
From Stdlib Require Import DecimalString DecimalPos DecimalZ.
Import ListNotations.
Open Scope string_scope.
Open Scope list_scope.

(* ================================================================== *)
(** * Part I. The embedding *)
(* ================================================================== *)

(** ** Python strings *)
Module PyStr.

Definition code (c : ascii) : nat := nat_of_ascii c.

Definition between (lo hi n : nat) : bool := (lo <=? n)%nat && (n <=? hi)%nat.

(** [str.isspace] on one character: TAB..CR, FS..US, SPACE, NEL, NBSP. *)
Definition isspace_char (c : ascii) : bool :=
  let n := code c in
  between 9 13 n || between 28 32 n || (n =? 133)%nat || (n =? 160)%nat.

(** Unicode decimal digits (category Nd) below 256: '0'..'9'. *)
Definition isdecimal_char (c : ascii) : bool := between 48 57 (code c).

(** [str.isdigit] on one character: the decimal digits and the characters of
    numeric type Digit, which below 256 are the superscripts U+00B2, U+00B3
    and U+00B9. *)
Definition isdigit_char (c : ascii) : bool :=
  let n := code c in
  isdecimal_char c || (n =? 178)%nat || (n =? 179)%nat || (n =? 185)%nat.

Definition digit_value (c : ascii) : Z := Z.of_nat (code c) - 48.

Fixpoint all_chars (p : ascii -> bool) (s : string) : bool :=
  match s with
  | EmptyString => true
  | String c r => p c && all_chars p r
  end.

Definition nonempty (s : string) : bool :=
  match s with EmptyString => false | String _ _ => true end.

(** [s.isdigit()] *)
Definition isdigit (s : string) : bool := nonempty s && all_chars isdigit_char s.

(** [s.isdecimal()] *)
Definition isdecimal (s : string) : bool := nonempty s && all_chars isdecimal_char s.

Fixpoint lstrip_by (p : ascii -> bool) (s : string) : string :=
  match s with
  | EmptyString => EmptyString
  | String c r => if p c then lstrip_by p r else s
  end.

Fixpoint rstrip_by (p : ascii -> bool) (s : string) : string :=
  match s with
  | EmptyString => EmptyString
  | String c r =>
      match rstrip_by p r with
      | EmptyString => if p c then EmptyString else String c EmptyString
      | r' => String c r'
      end
  end.

Definition strip_by (p : ascii -> bool) (s : string) : string :=
  rstrip_by p (lstrip_by p s).

(** [s.strip()] *)
Definition strip (s : string) : string := strip_by isspace_char s.

(** [s.strip(chars)], [s.rstrip(chars)] for a one-character [chars] *)
Definition strip_char (d : ascii) (s : string) : string := strip_by (Ascii.eqb d) s.
Definition rstrip_char (d : ascii) (s : string) : string := rstrip_by (Ascii.eqb d) s.

(** [s.split(d)] for a one-character separator; the list is never empty:
    the empty string splits into one empty string. *)
Fixpoint split (d : ascii) (s : string) : list string :=
  match s with
  | EmptyString => [EmptyString]
  | String c r =>
      if Ascii.eqb c d then EmptyString :: split d r
      else match split d r with
           | h :: t => String c h :: t
           | [] => [String c EmptyString]
           end
  end.

(** The digits of an integer literal as [int()] reads them in base 10:
    decimal digits, with single underscores allowed between two digits. *)
Fixpoint digits_value (acc : Z) (after_digit : bool) (s : string) : option Z :=
  match s with
  | EmptyString => if after_digit then Some acc else None
  | String c r =>
      if isdecimal_char c then digits_value (acc * 10 + digit_value c) true r
      else if Ascii.eqb c "_" && after_digit then digits_value acc false r
      else None
  end.

(** [int(s)] for a string: surrounding whitespace, an optional sign, digits.
    [None] stands for ValueError.  (The interpreter's limit on the length of
    a converted literal, 4300 digits by default, is not part of the model.) *)
Definition int (s : string) : option Z :=
  match strip s with
  | EmptyString => None
  | String c r =>
      if Ascii.eqb c "+" then digits_value 0 false r
      else if Ascii.eqb c "-" then option_map Z.opp (digits_value 0 false r)
      else digits_value 0 false (String c r)
  end.

(** [str(n)] for an integer. *)
Definition str_int (n : Z) : string := NilEmpty.string_of_int (Z.to_int n).

(** [str.lower] on one character of the Latin-1 range: A..Z and the
    accented capitals U+00C0..U+00DE except the multiplication sign. *)
Definition lower_char (c : ascii) : ascii :=
  let n := code c in
  if between 65 90 n || (between 192 222 n && negb (n =? 215)%nat)
  then ascii_of_nat (n + 32) else c.

Fixpoint lower (s : string) : string :=
  match s with
  | EmptyString => EmptyString
  | String c r => String (lower_char c) (lower r)
  end.

Fixpoint drop (n : nat) (s : string) : string :=
  match n, s with
  | O, _ => s
  | S n', String _ r => drop n' r
  | S _, EmptyString => EmptyString
  end.

(** [s.endswith(p)] *)
Definition endswith (p s : string) : bool :=
  (String.length p <=? String.length s)%nat
  && String.eqb (drop (String.length s - String.length p) s) p.

(** [sep.join(l)] *)
Fixpoint join (sep : string) (l : list string) : string :=
  match l with
  | [] => EmptyString
  | [x] => x
  | x :: r => String.append x (String.append sep (join sep r))
  end.

(** [c in s] *)
Fixpoint contains_char (d : ascii) (s : string) : bool :=
  match s with
  | EmptyString => false
  | String c r => Ascii.eqb c d || contains_char d r
  end.

End PyStr.

(** ** Exceptions, results, decoded JSON *)

Inductive exn : Type :=
| KeyError
| TypeError
| ValueError
| AttributeError
| IndexError
| NameError (name : string)
| ConnectionError          (* requests.exceptions.ConnectionError and kin *)
| HTTPError (status : Z)   (* raised by [raise_for_status] *)
| OSError.

(** [isinstance(e, requests.exceptions.RequestException)] *)
Definition is_request_exception (e : exn) : bool :=
  match e with
  | ConnectionError | HTTPError _ => true
  | _ => false
  end.

Inductive result (A : Type) : Type :=
| Ok (a : A)
| Raise (e : exn).
Arguments Ok {A} a.
Arguments Raise {A} e.

(** A decoded JSON document.  Numbers are the integers: a number with a
    fraction or an exponent decodes to a float, which is left out. *)
#[local] Set Warnings "-register-all".
Inductive json : Type :=
| JNull
| JBool (b : bool)
| JInt (z : Z)
| JStr (s : string)
| JList (l : list json)
| JDict (fields : list (string * json)).
#[local] Set Warnings "register-all".

(** [d.get(k)] on the items of a dict; the last binding of a key wins, as
    when a JSON object repeats a key. *)
Fixpoint dict_get (k : string) (fs : list (string * json)) : option json :=
  match fs with
  | [] => None
  | (k', v) :: r =>
      match dict_get k r with
      | Some v' => Some v'
      | None => if String.eqb k k' then Some v else None
      end
  end.

(** [bool(v)] *)
Definition truthy (v : json) : bool :=
  match v with
  | JNull => false
  | JBool b => b
  | JInt z => negb (z =? 0)%Z
  | JStr s => PyStr.nonempty s
  | JList l => match l with [] => false | _ => true end
  | JDict fs => match fs with [] => false | _ => true end
  end.

(** [v[k]] for a string key [k]. *)
Definition getitem (v : json) (k : string) : result json :=
  match v with
  | JDict fs => match dict_get k fs with Some x => Ok x | None => Raise KeyError end
  | _ => Raise TypeError
  end.

(** ** The monad of effectful code *)

Inductive endpoint : Type := Posts | Pages | Categories.

(** The URLs the program builds, by their parts. *)
Inductive wp_url : Type :=
| PostsPage (base_url : string) (per_page page : Z)
    (* {base_url}/wp-json/wp/v2/posts?per_page={per_page}&page={page} *)
| PostById (base_url : string) (post_id : Z)
    (* {base_url}/wp-json/wp/v2/posts/{post_id} *)
| BySlug (what : endpoint) (base_url slug : string).
    (* {base_url}/wp-json/wp/v2/{what}?slug={slug} *)

(** An element of [all_links]: a slug scraped from the content or an
    identifier read from the structured field. *)
Inductive link : Type :=
| Slug (slug : string)
| Id (post_id : Z).

(** A row of the report. *)
Record row : Type := mkRow {
  post_id : Z;
  post_slug : string;
  outgoing_count : Z;
  outgoing_links : string;
  incoming_count : Z;
  incoming_links : string
}.

Inductive level : Type := INFO | WARNING | ERROR.

(** The log records of the program, one constructor per message. *)
Inductive msg : Type :=
(* core/api_client.py *)
| ApiRequest (u : wp_url)
| NoPostsFirstPage
| NoPostsOnPage (page : Z)
| PostListError (page : Z) (e : exn)
| PostContentKeyError (post_id : Z) (e : exn)
| PostContentError (post_id : Z) (e : exn)
| RequestFailed (u : wp_url) (attempt max_attempts : Z) (e : exn)
| RetryIn (seconds : Z)
| GaveUp (max_attempts : Z) (e : exn)
| RequestUnexpected (u : wp_url) (e : exn)
(* core/link_extractor.py *)
| ExtractError (e : exn)
| AcfError (e : exn)
| SlugNoId (slug : string)
| SlugAttemptFailed (slug : string) (attempt max_attempts : Z) (e : exn)
(* core/data_processor.py *)
| UnknownTarget (linked_post_id : Z)
(* main.py *)
| Start
| SiteStart (base_url : string)
| FetchingPosts (base_url : string)
| NoPostList (base_url : string)
| PostsFound (n : nat) (base_url : string)
| ExtractingLinks (base_url : string)
| NoContent (post_id : Z)
| NoAcfData (post_id : Z)
| NotAnArticle (linked_post_id : Z) (l : link) (post_id : Z)
| LinkNotFound (l : link) (post_id : Z)
| ComputingIncoming (base_url : string)
| BuildingFrame (base_url : string)
| Exporting (csv_filename : string)
| SiteDone (base_url : string)
| AllDone
| Unexpected (e : exn).

Inductive event : Type :=
| Log (lv : level) (m : msg)
| Sleep (seconds : Z)
| Csv (csv_filename : string) (df : list row).   (* a file written by [to_csv] *)

Record state : Type := mkState {
  sent : nat;            (* HTTP requests sent so far *)
  trace : list event     (* log records, sleeps and exports, oldest first *)
}.

Definition M (A : Type) : Type := state -> result A * state.

Definition ret {A} (a : A) : M A := fun s => (Ok a, s).

Definition raise {A} (e : exn) : M A := fun s => (Raise e, s).

Definition bind {A B} (m : M A) (f : A -> M B) : M B :=
  fun s => match m s with
           | (Ok a, s') => f a s'
           | (Raise e, s') => (Raise e, s')
           end.

(** [try: m  except Exception as e: handler e] *)
Definition try_except {A} (m : M A) (handler : exn -> M A) : M A :=
  fun s => match m s with
           | (Ok a, s') => (Ok a, s')
           | (Raise e, s') => handler e s'
           end.

Definition lift {A} (r : result A) : M A := fun s => (r, s).

Definition emit (ev : event) : M unit :=
  fun s => (Ok tt, mkState (sent s) (trace s ++ [ev])).

Definition log (lv : level) (m : msg) : M unit := emit (Log lv m).

Definition sleep (seconds : Z) : M unit := emit (Sleep seconds).

Declare Scope py_scope.
Delimit Scope py_scope with py.
Notation "x <- m ;; k" := (bind m (fun x => k))
  (at level 61, m at next level, right associativity) : py_scope.
Notation "m ;; k" := (bind m (fun _ => k))
  (at level 61, right associativity) : py_scope.
Open Scope py_scope.

(** The value and the trace of a run from the initial state. *)
Definition init : state := mkState 0 [].
Definition value {A} (m : M A) : result A := fst (m init).
Definition logged {A} (m : M A) : list event := trace (snd (m init)).

(** [for x in l: acc = f(x, acc)] *)
Fixpoint for_each {A S} (f : A -> S -> M S) (l : list A) (acc : S) : M S :=
  match l with
  | [] => ret acc
  | x :: r => acc' <- f x acc ;; for_each f r acc'
  end.

(** [[f(x) for x in l]] where [f] may raise. *)
Fixpoint map_result {A B} (f : A -> result B) (l : list A) : result (list B) :=
  match l with
  | [] => Ok []
  | x :: r =>
      match f x with
      | Raise e => Raise e
      | Ok y => match map_result f r with
                | Raise e => Raise e
                | Ok ys => Ok (y :: ys)
                end
      end
  end.

(** ** HTTP *)

(** What [requests.get] returns: the status code, the header
    [X-WP-TotalPages] when present, and the decoded body. *)
Record response (B : Type) : Type := mkResponse {
  status_code : Z;
  x_wp_totalpages : option string;
  body : B
}.
Arguments mkResponse {B} _ _ _.
Arguments status_code {B} _.
Arguments x_wp_totalpages {B} _.
Arguments body {B} _.

(** [requests.get(u)] as request number [sent]: [server] answers with a
    response or with nothing, and then [requests.get] raises. *)
Definition requests_get {B} (server : nat -> wp_url -> option (response B)) (u : wp_url)
  : M (response B) :=
  fun s =>
    let s' := mkState (S (sent s)) (trace s) in
    match server (sent s) u with
    | Some r => (Ok r, s')
    | None => (Raise ConnectionError, s')
    end.

(** [response.raise_for_status()] *)
Definition raise_for_status {B} (r : response B) : M unit :=
  if (400 <=? status_code r)%Z && (status_code r <? 600)%Z
  then raise (HTTPError (status_code r))
  else ret tt.

(** An element of a list body.  The fields [id] and [slug] of an object are
    absent or of the type the REST schema gives them; anything that is not
    an object raises TypeError when subscripted with a string. *)
Inductive item : Type :=
| Obj (id : option Z) (slug : option string)
| NotObj.

(** The decoded body of a collection endpoint. *)
Inductive listing : Type :=
| LList (items : list item)
| LDict (keys : list string)     (* an object, for instance an error document *)
| LNull
| LBool (b : bool)
| LInt (z : Z)
| LStr (s : string).

(** [bool(posts)] *)
Definition listing_truthy (l : listing) : bool :=
  match l with
  | LList items => match items with [] => false | _ => true end
  | LDict keys => match keys with [] => false | _ => true end
  | LNull => false
  | LBool b => b
  | LInt z => negb (z =? 0)%Z
  | LStr s => PyStr.nonempty s
  end.

(** [post["id"]], [post["slug"]] *)
Definition item_id (it : item) : result Z :=
  match it with
  | Obj (Some i) _ => Ok i
  | Obj None _ => Raise KeyError
  | NotObj => Raise TypeError
  end.

Definition item_slug (it : item) : result string :=
  match it with
  | Obj _ (Some s) => Ok s
  | Obj _ None => Raise KeyError
  | NotObj => Raise TypeError
  end.

(** An article of the directory, [{"id": ..., "slug": ...}]. *)
Record post : Type := Post { p_id : Z; p_slug : string }.

(** ** The regular expression of the anchor scan *)

(** The pattern of [extract_internal_links],
    [<a href=Q(?:https?://)?(?:www\.)?BASE([^Q]*?)Q.*?>] where Q is the double
    quote and BASE the escaped base URL, under [re.IGNORECASE], written with
    backtracking combinators: a matcher takes its continuation and the text
    left. *)
Module Regex.

Definition quote : ascii := ascii_of_nat 34.      (* the double quote *)
Definition newline : ascii := ascii_of_nat 10.

(** Two characters of the Latin-1 range match under [re.IGNORECASE] when
    they have the same lower case. *)
Definition eqb_ci (a b : ascii) : bool :=
  Ascii.eqb (PyStr.lower_char a) (PyStr.lower_char b).

(** A literal: the text left after it, or no match. *)
Fixpoint skip_ci (p s : string) : option string :=
  match p, s with
  | EmptyString, _ => Some s
  | String a p', String b s' => if eqb_ci a b then skip_ci p' s' else None
  | String _ _, EmptyString => None
  end.

Definition matcher (R : Type) : Type := (string -> option R) -> string -> option R.

Definition lit {R} (p : string) : matcher R :=
  fun k s => match skip_ci p s with Some s' => k s' | None => None end.

(** [(?:g)?], greedy: with the group first, without it on failure. *)
Definition opt {R} (g : matcher R) : matcher R :=
  fun k s => match g k s with Some r => Some r | None => k s end.

(** [gh]: [g], then [h]. *)
Definition next {R} (g h : matcher R) : matcher R := fun k => g (h k).

(** [([^Q]*?)Q]: the group is the text before the next double quote. *)
Fixpoint until_quote (s : string) : option (string * string) :=
  match s with
  | EmptyString => None
  | String c r =>
      if Ascii.eqb c quote then Some (EmptyString, r)
      else match until_quote r with
           | Some (g, rest) => Some (String c g, rest)
           | None => None
           end
  end.

(** [.*?>]: up to the next [>], which no newline may precede. *)
Fixpoint until_gt (s : string) : option string :=
  match s with
  | EmptyString => None
  | String c r =>
      if Ascii.eqb c ">" then Some r
      else if Ascii.eqb c newline then None
      else until_gt r
  end.

(** A match of the whole pattern at the start of [s]: group 1 and the text
    after the match. *)
Definition match_anchor (escaped_base_url : string) (s : string)
  : option (string * string) :=
  next (lit (String.append "<a href=" (String quote EmptyString)))
       (next (opt (next (lit "http") (next (opt (lit "s")) (lit "://"))))
             (next (opt (lit "www."))
                   (lit escaped_base_url)))
      (fun s1 =>
         match until_quote s1 with
         | Some (g, s2) =>
             match until_gt s2 with
             | Some s3 => Some (g, s3)
             | None => None
             end
         | None => None
         end)
      s.

(** [re.findall]: the groups of the non-overlapping matches, left to right.
    [skip] counts the characters still covered by the last match. *)
Fixpoint findall_from (skip : nat) (escaped_base_url : string) (s : string)
  : list string :=
  match s with
  | EmptyString => []
  | String _ r =>
      match skip with
      | S k => findall_from k escaped_base_url r
      | O =>
          match match_anchor escaped_base_url s with
          | Some (g, rest) =>
              g :: findall_from (String.length r - String.length rest)
                                escaped_base_url r
          | None => findall_from 0 escaped_base_url r
          end
      end
  end.

Definition findall (escaped_base_url : string) (s : string) : list string :=
  findall_from 0 escaped_base_url s.

End Regex.

(** ** urllib.parse.urlparse *)

(** The path that [urlparse(url).path] returns, after CPython 3.12's
    [urlsplit] and [urlparse].  The checks of a bracketed or non-ASCII network
    location ([_check_bracketed_netloc], [_checknetloc]) are the parameter
    [netloc_valid]. *)
Module UrlParse.

Definition c0_control_or_space (c : ascii) : bool := (PyStr.code c <=? 32)%nat.

Definition unsafe_char (c : ascii) : bool :=
  let n := PyStr.code c in (n =? 9)%nat || (n =? 10)%nat || (n =? 13)%nat.

Definition ascii_letter (c : ascii) : bool :=
  let n := PyStr.code c in PyStr.between 65 90 n || PyStr.between 97 122 n.

(** [scheme_chars]: letters, digits, [+], [-], [.] *)
Definition scheme_char (c : ascii) : bool :=
  let n := PyStr.code c in
  ascii_letter c || PyStr.between 48 57 n
  || (n =? 43)%nat || (n =? 45)%nat || (n =? 46)%nat.

Fixpoint remove_chars (p : ascii -> bool) (s : string) : string :=
  match s with
  | EmptyString => EmptyString
  | String c r => if p c then remove_chars p r else String c (remove_chars p r)
  end.

(** [s.partition(d)]: the text before the first [d] and, when [d] occurs,
    the text after it. *)
Fixpoint partition (d : ascii) (s : string) : string * option string :=
  match s with
  | EmptyString => (EmptyString, None)
  | String c r =>
      if Ascii.eqb c d then (EmptyString, Some r)
      else let (a, b) := partition d r in (String c a, b)
  end.

(** The scheme of a URL and the text after its colon, when the text before
    the first colon is not empty, starts with a letter and is made of scheme
    characters. *)
Definition split_scheme (url : string) : string * string :=
  match partition ":" url with
  | (String c0 pre, Some rest) =>
      if ascii_letter c0 && PyStr.all_chars scheme_char pre
      then (PyStr.lower (String c0 pre), rest)
      else (EmptyString, url)
  | _ => (EmptyString, url)
  end.

(** [_splitnetloc(url, 2)]: the network location ends at the first of
    [/], [?], [#]. *)
Fixpoint splitnetloc (s : string) : string * string :=
  match s with
  | EmptyString => (EmptyString, EmptyString)
  | String c r =>
      if Ascii.eqb c "/" || Ascii.eqb c "?" || Ascii.eqb c "#"
      then (EmptyString, s)
      else let (a, b) := splitnetloc r in (String c a, b)
  end.

Definition uses_params : list string :=
  [""; "ftp"; "hdl"; "prospero"; "http"; "imap"; "https"; "shttp"; "rtsp";
   "rtsps"; "rtspu"; "sip"; "sips"; "mms"; "sftp"; "tel"].

(** [_splitparams(url)[0]]: the path is cut at the first [;] of its last
    segment. *)
Fixpoint cut_params (s : string) : string :=
  match s with
  | EmptyString => EmptyString
  | String c r =>
      if PyStr.contains_char "/" r then String c (cut_params r)
      else if Ascii.eqb c ";" then EmptyString
      else String c (cut_params r)
  end.

Section Path.
Variable netloc_valid : string -> bool.

(** [urlsplit(url)]: the scheme and the path (the network location, the
    query and the fragment are dropped); ValueError on a network location
    that fails the checks. *)
Definition urlsplit (url : string) : result (string * string) :=
  let url := PyStr.lstrip_by c0_control_or_space url in
  let url := remove_chars unsafe_char url in
  let (scheme, url) := split_scheme url in
  let after_netloc :=
    match url with
    | String "/" (String "/" r) =>
        let (netloc, rest) := splitnetloc r in
        let has_open := PyStr.contains_char "[" netloc in
        let has_close := PyStr.contains_char "]" netloc in
        if (has_open && negb has_close) || (has_close && negb has_open)
        then Raise ValueError
        else if netloc_valid netloc then Ok rest else Raise ValueError
    | _ => Ok url
    end in
  match after_netloc with
  | Raise e => Raise e
  | Ok url =>
      let url := fst (partition "#" url) in
      let url := fst (partition "?" url) in
      Ok (scheme, url)
  end.

(** [urlparse(url).path] *)
Definition path (url : string) : result string :=
  match urlsplit url with
  | Raise e => Raise e
  | Ok (scheme, url) =>
      if existsb (String.eqb scheme) uses_params && PyStr.contains_char ";" url
      then Ok (cut_params url)
      else Ok url
  end.

End Path.
End UrlParse.

(** ** core/link_extractor.py *)
Module LinkExtractor.

(** *** extract_internal_links *)

Definition file_suffixes : list string := [".pdf"; ".jpg"; ".jpeg"; ".png"; ".gif"].

(** One round of the loop over the matches: [None] for [continue].  The
    subscript [-1] cannot fail, [split] never returns an empty list. *)
Definition slug_of_path (path : string) : option string :=
  if existsb (fun suffix => PyStr.endswith suffix (PyStr.lower path)) file_suffixes
  then None
  else Some (List.last (PyStr.split "/" (PyStr.strip_char "/" path)) EmptyString).

Fixpoint internal_links_of (netloc_valid : string -> bool) (links : list string)
  : result (list string) :=
  match links with
  | [] => Ok []
  | link :: rest =>
      match UrlParse.path netloc_valid link with
      | Raise e => Raise e
      | Ok path =>
          match internal_links_of netloc_valid rest with
          | Raise e => Raise e
          | Ok slugs =>
              match slug_of_path path with
              | None => Ok slugs
              | Some slug => Ok (slug :: slugs)
              end
          end
      end
  end.

(** The body of the [try]; [re.findall] raises TypeError on content that is
    not a string. *)
Definition internal_links (netloc_valid : string -> bool)
           (post_content : json) (base_url : string) : result (list string) :=
  match post_content with
  | JStr html =>
      let escaped_base_url := PyStr.rstrip_char "/" base_url in
      internal_links_of netloc_valid (Regex.findall escaped_base_url html)
  | _ => Raise TypeError
  end.

Definition extract_internal_links (netloc_valid : string -> bool)
           (post_content : json) (base_url : string) : M (list string) :=
  try_except (lift (internal_links netloc_valid post_content base_url))
    (fun e => log ERROR (ExtractError e) ;; ret []).

(** *** extract_acf_links *)

(** [str(x)] for the values that pass [isinstance(x, (int, str))]; a JSON
    boolean decodes to a Python [bool], which is an [int]. *)
Definition str_of (x : json) : option string :=
  match x with
  | JInt z => Some (PyStr.str_int z)
  | JBool true => Some "True"
  | JBool false => Some "False"
  | JStr s => Some s
  | _ => None
  end.

(** [isinstance(x, (int, str)) and str(x).isdigit()] *)
Definition is_digit_item (x : json) : bool :=
  match str_of x with
  | Some s => PyStr.isdigit s
  | None => false
  end.

Definition int_of_str (s : string) : result Z :=
  match PyStr.int s with Some z => Ok z | None => Raise ValueError end.

(** [int(x)] *)
Definition int_of (x : json) : result Z :=
  match x with
  | JInt z => Ok z
  | JBool b => Ok (Z.b2z b)
  | JStr s => int_of_str s
  | _ => Raise TypeError
  end.

(** The body of the [try] of [extract_acf_links]. *)
Definition related_posts (acf_data : json) (acf_field_name : string)
  : result (list Z) :=
  match acf_data with
  | JDict fields =>
      match dict_get acf_field_name fields with
      | Some (JStr s) =>
          let related_posts_list :=
            map PyStr.strip
                (filter (fun x => PyStr.isdigit (PyStr.strip x)) (PyStr.split "," s)) in
          map_result int_of_str (filter PyStr.isdigit related_posts_list)
      | Some (JList l) => map_result int_of (filter is_digit_item l)
      | _ => Ok []
      end
  | _ => Raise AttributeError      (* no [get] on a list, a string, ... *)
  end.

Definition extract_acf_links (acf_data : json) (acf_field_name : string)
  : M (list Z) :=
  try_except (lift (related_posts acf_data acf_field_name))
    (fun e => match e with
              | AttributeError | TypeError | ValueError =>
                  log WARNING (AcfError e) ;; ret []
              | _ => raise e
              end).


(** *** resolve_slug_to_id *)

(** [posts[0]["id"]] *)
Definition first_id (l : listing) : result Z :=
  match l with
  | LList (it :: _) => item_id it
  | LList [] => Raise IndexError
  | LDict _ => Raise KeyError            (* 0 is not a key *)
  | LStr (String _ _) => Raise TypeError (* a character, subscripted with "id" *)
  | LStr EmptyString => Raise IndexError
  | LNull | LBool _ | LInt _ => Raise TypeError
  end.

Section Resolve.
Variable server : nat -> wp_url -> option (response listing).

(** [requests.get], [raise_for_status], [response.json()] *)
Definition lookup (what : endpoint) (base_url slug : string) : M listing :=
  r <- requests_get server (BySlug what base_url slug) ;;
  raise_for_status r ;;
  ret (body r).

(** The body of the [try]. *)
Definition lookups (base_url slug : string) (ignore_non_posts : bool)
  : M (option Z) :=
  posts <- lookup Posts base_url slug ;;
  if listing_truthy posts then
    i <- lift (first_id posts) ;; ret (Some i)
  else if negb ignore_non_posts then
    pages <- lookup Pages base_url slug ;;
    if listing_truthy pages then
      i <- lift (first_id pages) ;; ret (Some i)
    else
      categories <- lookup Categories base_url slug ;;
      if listing_truthy categories then
        i <- lift (first_id categories) ;; ret (Some i)
      else
        log WARNING (SlugNoId slug) ;; ret None
  else
    log WARNING (SlugNoId slug) ;; ret None.

(** The loop [for attempt in range(max_attempts)], with [remaining] rounds
    to go.  The handler of [except Exception] formats its message with the
    name [url], which the function does not bind: it raises NameError. *)
Fixpoint resolve_from (remaining : nat) (attempt : Z)
         (base_url slug : string) (ignore_non_posts : bool) (max_attempts : Z)
  : M (option Z) :=
  match remaining with
  | O => ret None
  | S n =>
      try_except (lookups base_url slug ignore_non_posts)
        (fun e =>
           if is_request_exception e then
             log ERROR (SlugAttemptFailed slug (attempt + 1) max_attempts e) ;;
             if (attempt <? max_attempts - 1)%Z then
               let sleep_time := (2 ^ attempt)%Z in
               log INFO (RetryIn sleep_time) ;;
               sleep sleep_time ;;
               resolve_from n (attempt + 1) base_url slug ignore_non_posts max_attempts
             else
               log ERROR (GaveUp max_attempts e) ;; ret None
           else
             raise (NameError "url"))
  end.

Definition resolve_slug_to_id (base_url slug : string) (ignore_non_posts : bool)
           (max_attempts : Z) : M (option Z) :=
  resolve_from (Z.to_nat max_attempts) 0 base_url slug ignore_non_posts max_attempts.

End Resolve.

End LinkExtractor.

(** ** core/api_client.py *)
Module ApiClient.

(** *** _make_request *)
Section MakeRequest.
Context {B : Type}.
Variable server : nat -> wp_url -> option (response B).

Fixpoint make_request_from (remaining : nat) (attempt : Z) (u : wp_url)
         (max_attempts : Z) : M (option (response B)) :=
  match remaining with
  | O => ret None
  | S n =>
      try_except
        (r <- requests_get server u ;; raise_for_status r ;; ret (Some r))
        (fun e =>
           if is_request_exception e then
             log WARNING (RequestFailed u (attempt + 1) max_attempts e) ;;
             if (attempt <? max_attempts - 1)%Z then
               let sleep_time := (2 ^ attempt)%Z in
               log INFO (RetryIn sleep_time) ;;
               sleep sleep_time ;;
               make_request_from n (attempt + 1) u max_attempts
             else
               log ERROR (GaveUp max_attempts e) ;; ret None
           else
             log ERROR (RequestUnexpected u e) ;; ret None)
  end.

Definition _make_request (u : wp_url) (max_attempts : Z) : M (option (response B)) :=
  make_request_from (Z.to_nat max_attempts) 0 u max_attempts.

End MakeRequest.

(** *** get_all_posts *)

(** [for post in posts: all_posts.append({"id": post["id"], "slug": post["slug"]})]
    for a body that is true: the entries, or the exception of the first
    element that has no [id] or no [slug].  A true body that is not a list
    always raises: iterating an object or a string gives strings, and a
    number or [True] is not iterable. *)
Definition entry_of (it : item) : result post :=
  match item_id it with
  | Raise e => Raise e
  | Ok i => match item_slug it with
            | Raise e => Raise e
            | Ok s => Ok (Post i s)
            end
  end.

Definition entries_of (posts : listing) : result (list post) :=
  match posts with
  | LList items => map_result entry_of items
  | _ => Raise TypeError
  end.

(** [int(h) if h else 1] for the header [X-WP-TotalPages] *)
Definition total_pages_of (h : option string) : result Z :=
  match h with
  | Some (String c r) =>
      match PyStr.int (String c r) with
      | Some n => Ok n
      | None => Raise ValueError
      end
  | _ => Ok 1%Z
  end.

Section Posts.
Variable server : nat -> wp_url -> option (response listing).

Definition on_error (page : Z) (e : exn) : M (list post) :=
  log ERROR (PostListError page e) ;; ret [].

(** The loop [while page <= (total_pages or 1)], with [remaining] pages to
    go.  An exception is handled where it is raised, with the page number the
    handler of [get_all_posts] logs: the function then returns []. *)
Fixpoint more_pages (remaining : nat) (page : Z) (base_url : string)
         (per_page : Z) (all_posts : list post) : M (list post) :=
  match remaining with
  | O => ret all_posts
  | S n =>
      let api_url := PostsPage base_url per_page page in
      log INFO (ApiRequest api_url) ;;
      response <- _make_request server api_url 3 ;;
      match response with
      | None => ret all_posts                                    (* break *)
      | Some r =>
          let posts := body r in
          if negb (listing_truthy posts) then
            log WARNING (NoPostsOnPage page) ;; ret all_posts    (* break *)
          else
            match entries_of posts with
            | Raise e => on_error page e
            | Ok entries =>
                more_pages n (page + 1) base_url per_page (all_posts ++ entries)
            end
      end
  end.

Definition get_all_posts (base_url : string) (per_page : Z) : M (list post) :=
  let api_url := PostsPage base_url per_page 1 in
  log INFO (ApiRequest api_url) ;;
  response <- _make_request server api_url 3 ;;
  match response with
  | None => ret []
  | Some r =>
      try_except
        (total_pages <- lift (total_pages_of (x_wp_totalpages r)) ;;
         let posts := body r in
         if negb (listing_truthy posts) then
           log WARNING NoPostsFirstPage ;; ret []
         else
           entries <- lift (entries_of posts) ;;
           let last_page := if (total_pages =? 0)%Z then 1%Z else total_pages in
           more_pages (Z.to_nat (last_page - 1)) 2 base_url per_page entries)
        (on_error 1)
  end.

End Posts.

(** *** get_post_content *)
Section Content.
Variable server : nat -> wp_url -> option (response json).

Definition no_content : json * json := (JStr EmptyString, JDict []).

Definition get_post_content (base_url : string) (post_id : Z) : M (json * json) :=
  let api_url := PostById base_url post_id in
  log INFO (ApiRequest api_url) ;;
  response <- _make_request server api_url 3 ;;
  match response with
  | None => ret no_content
  | Some r =>
      try_except
        (let post_data := body r in
         rendered <- lift (getitem post_data "content") ;;
         content <- lift (getitem rendered "rendered") ;;
         let acf_data :=
           match post_data with
           | JDict fields =>
               match dict_get "acf" fields with Some a => a | None => JDict [] end
           | _ => JDict []
           end in
         ret (content, acf_data))
        (fun e =>
           match e with
           | KeyError => log ERROR (PostContentKeyError post_id e) ;; ret no_content
           | _ => log ERROR (PostContentError post_id e) ;; ret no_content
           end)
  end.

End Content.
End ApiClient.

(** ** Python dicts with integer keys *)

(** The items of a dict in insertion order; keys are distinct. *)
Module PyDict.

Definition t (V : Type) : Type := list (Z * V).

(** [d.get(k)] *)
Fixpoint get {V} (k : Z) (d : t V) : option V :=
  match d with
  | [] => None
  | (k', v) :: r => if (k =? k')%Z then Some v else get k r
  end.

(** [k in d] *)
Definition mem {V} (k : Z) (d : t V) : bool :=
  match get k d with Some _ => true | None => false end.

(** [d[k] = v]: a present key keeps its place, a new key goes last. *)
Fixpoint set {V} (k : Z) (v : V) (d : t V) : t V :=
  match d with
  | [] => [(k, v)]
  | (k', v') :: r => if (k =? k')%Z then (k, v) :: r else (k', v') :: set k v r
  end.

(** [d[k].append(x)] for a key that is present; nothing changes otherwise
    (the callers test the key first). *)
Fixpoint append {A} (k : Z) (x : A) (d : t (list A)) : t (list A) :=
  match d with
  | [] => []
  | (k', l) :: r => if (k =? k')%Z then (k', l ++ [x]) :: r else (k', l) :: append k x r
  end.

End PyDict.

(** ** core/data_processor.py *)
Module DataProcessor.

(** *** calculate_incoming_links *)

Definition add_incoming (post_id : Z) (linked_post_id : Z)
           (incoming_links : PyDict.t (list Z)) : M (PyDict.t (list Z)) :=
  if PyDict.mem linked_post_id incoming_links then
    ret (PyDict.append linked_post_id post_id incoming_links)
  else
    log WARNING (UnknownTarget linked_post_id) ;; ret incoming_links.

Definition calculate_incoming_links (all_posts : list post)
           (links_per_post : PyDict.t (list Z)) : M (PyDict.t (list Z)) :=
  let incoming_links :=
    fold_left (fun d p => PyDict.set (p_id p) [] d) all_posts [] in
  for_each (fun '(post_id, outgoing_links) =>
              for_each (add_incoming post_id) outgoing_links)
           links_per_post incoming_links.

(** *** build_dataframe *)

(** [", ".join(map(str, ids))] *)
Definition joined (ids : list Z) : string :=
  PyStr.join ", " (map PyStr.str_int ids).

Definition row_of (links_per_post incoming_links : PyDict.t (list Z)) (p : post)
  : row :=
  let outgoing_links := match PyDict.get (p_id p) links_per_post with
                        | Some l => l | None => [] end in
  let incoming_links_for_post := match PyDict.get (p_id p) incoming_links with
                                 | Some l => l | None => [] end in
  mkRow (p_id p) (p_slug p)
        (Z.of_nat (List.length outgoing_links)) (joined outgoing_links)
        (Z.of_nat (List.length incoming_links_for_post))
        (joined incoming_links_for_post).

(** [df.take(indexer)] *)
Definition take {A} (indexer : list nat) (rows : list A) : list A :=
  flat_map (fun i => match nth_error rows i with Some r => [r] | None => [] end)
           indexer.

Section Sort.
(** [numpy.argsort(kind="quicksort")] on a column of integers: the positions
    of the items in ascending order of the items. *)
Variable argsort : list Z -> list nat.

(** pandas' [nargsort(items, kind="quicksort", ascending, na_position="last")]
    on a column without missing values: for a descending sort the column
    is reversed, sorted, and the positions are reversed back. *)
Definition nargsort (items : list Z) (ascending : bool) : list nat :=
  let idx := seq 0 (List.length items) in
  let non_nans := if ascending then items else rev items in
  let non_nan_idx := if ascending then idx else rev idx in
  let indexer := map (fun i => nth i non_nan_idx O) (argsort non_nans) in
  if ascending then indexer else rev indexer.

(** [df.sort_values(by="incoming_count", ascending=False)] *)
Definition sort_values_by_incoming_count (df : list row) : list row :=
  take (nargsort (map incoming_count df) false) df.

(** A frame built from an empty list has no columns, and sorting it by
    ["incoming_count"] raises KeyError. *)
Definition build_dataframe (all_posts : list post)
           (links_per_post incoming_links : PyDict.t (list Z))
  : result (list row) :=
  let data := map (row_of links_per_post incoming_links) all_posts in
  match data with
  | [] => Raise KeyError
  | _ => Ok (sort_values_by_incoming_count data)
  end.

End Sort.
End DataProcessor.

(** ** numpy's quicksort *)

(** The sort that [numpy.argsort(kind="quicksort")] runs on an integer
    column in numpy's portable code ([npysort/quicksort.cpp], [aquicksort_]):
    an introsort on the array [tosort] of positions, with a median-of-three
    partition, insertion sort on ranges of at most 17 items, and heapsort
    once the depth budget is spent.  Pointers are positions in [tosort]. *)
Module NumpySort.

Definition SMALL_QUICKSORT : nat := 16.

Definition get (tosort : list nat) (i : nat) : nat := nth i tosort O.

Fixpoint put (tosort : list nat) (i x : nat) : list nat :=
  match tosort, i with
  | [], _ => []
  | _ :: r, O => x :: r
  | y :: r, S j => y :: put r j x
  end.

(** [INTP_SWAP] of the items at [pi] and [pj] *)
Definition swap (tosort : list nat) (i j : nat) : list nat :=
  put (put tosort i (get tosort j)) j (get tosort i).

Section Keys.
Variable v : list Z.

Definition val (k : nat) : Z := nth k v 0%Z.                 (* v[k] *)
Definition key (tosort : list nat) (i : nat) : Z := val (get tosort i).  (* v[*pi] *)
Definition less (a b : Z) : bool := (a <? b)%Z.

(** [while (pj > pl && less(vp, v[*pk])) *pj-- = *pk--;  *pj = vi;] *)
Fixpoint shift_down (pl vi : nat) (pj : nat) (tosort : list nat) : list nat :=
  match pj with
  | O => put tosort O vi
  | S pk =>
      if (pl <? pj)%nat && less (val vi) (key tosort pk)
      then shift_down pl vi pk (put tosort pj (get tosort pk))
      else put tosort pj vi
  end.

(** [for (pi = pl + 1; pi <= pr; ++pi)], [count] rounds to go. *)
Fixpoint insertion_from (count pl pi : nat) (tosort : list nat) : list nat :=
  match count with
  | O => tosort
  | S c => insertion_from c pl (S pi) (shift_down pl (get tosort pi) pi tosort)
  end.

Definition insertion_sort (pl pr : nat) (tosort : list nat) : list nat :=
  insertion_from (pr - pl) pl (S pl) tosort.

(** [do ++pi; while (less(v[*pi], vp));] *)
Fixpoint scan_up (fuel : nat) (vp : Z) (tosort : list nat) (pi : nat) : nat :=
  match fuel with
  | O => S pi
  | S f => if less (key tosort (S pi)) vp then scan_up f vp tosort (S pi) else S pi
  end.

(** [do --pj; while (less(vp, v[*pj]));] *)
Fixpoint scan_down (fuel : nat) (vp : Z) (tosort : list nat) (pj : nat) : nat :=
  match fuel with
  | O => pj - 1
  | S f => if less vp (key tosort (pj - 1)) then scan_down f vp tosort (pj - 1)
           else pj - 1
  end.

(** The loop [for (;;)] of the partition: the position [pi] at the [break]. *)
Fixpoint hoare (fuel : nat) (vp : Z) (pi pj : nat) (tosort : list nat)
  : nat * list nat :=
  match fuel with
  | O => (pi, tosort)
  | S f =>
      let pi' := scan_up (List.length tosort) vp tosort pi in
      let pj' := scan_down (List.length tosort) vp tosort pj in
      if (pj' <=? pi')%nat then (pi', tosort)
      else hoare f vp pi' pj' (swap tosort pi' pj')
  end.

(** One partition of the range [pl..pr]: the pivot's final position. *)
Definition partition (pl pr : nat) (tosort : list nat) : nat * list nat :=
  let pm := pl + (pr - pl) / 2 in
  let t := if less (key tosort pm) (key tosort pl) then swap tosort pm pl else tosort in
  let t := if less (key t pr) (key t pm) then swap t pr pm else t in
  let t := if less (key t pm) (key t pl) then swap t pm pl else t in
  let vp := key t pm in
  let pj := pr - 1 in
  let t := swap t pm pj in
  let (pi, t) := hoare (List.length t) vp pl pj t in
  (pi, swap t pi (pr - 1)).

(** [aheapsort_] on the [n] positions from [pl]; [a[k]] is [tosort[pl+k-1]]. *)
Definition geta (pl : nat) (tosort : list nat) (k : nat) : nat :=
  get tosort (pl + k - 1).
Definition puta (pl : nat) (tosort : list nat) (k x : nat) : list nat :=
  put tosort (pl + k - 1) x.

Fixpoint sift (fuel : nat) (pl tmp n i j : nat) (tosort : list nat)
  : nat * list nat :=
  match fuel with
  | O => (i, tosort)
  | S f =>
      if (j <=? n)%nat then
        let j := if (j <? n)%nat
                    && less (val (geta pl tosort j)) (val (geta pl tosort (j + 1)))
                 then j + 1 else j in
        if less (val tmp) (val (geta pl tosort j))
        then sift f pl tmp n j (j + j) (puta pl tosort i (geta pl tosort j))
        else (i, tosort)
      else (i, tosort)
  end.

Fixpoint heapify (l pl n : nat) (tosort : list nat) : list nat :=
  match l with
  | O => tosort
  | S l' =>
      let tmp := geta pl tosort l in
      let (i, t) := sift n pl tmp n l (l + l) tosort in
      heapify l' pl n (puta pl t i tmp)
  end.

Fixpoint sortdown (n pl : nat) (tosort : list nat) : list nat :=
  match n with
  | S (S _ as n') =>
      let tmp := geta pl tosort n in
      let t := puta pl tosort n (geta pl tosort 1) in
      let (i, t) := sift n pl tmp n' 1 2 t in
      sortdown n' pl (puta pl t i tmp)
  | _ => tosort
  end.

Definition aheapsort (pl n : nat) (tosort : list nat) : list nat :=
  sortdown n pl (heapify (n / 2) pl n tosort).

(** The loop [while (1)] with its stack of pending ranges.  [at_top] is true
    when control is at the top of the loop, where the depth budget is
    tested, and false inside the partition loop. *)
Fixpoint run (fuel : nat) (at_top : bool) (tosort : list nat) (pl pr : nat)
         (cdepth : Z) (stack : list (nat * nat * Z)) : list nat :=
  match fuel with
  | O => tosort
  | S f =>
      let stack_pop := fun t =>
        match stack with
        | [] => t
        | (pl', pr', d) :: rest => run f true t pl' pr' d rest
        end in
      if at_top && (cdepth <? 0)%Z then
        stack_pop (aheapsort pl (pr - pl + 1) tosort)
      else if (SMALL_QUICKSORT <? pr - pl)%nat then
        let (pi, t) := partition pl pr tosort in
        let cdepth := (cdepth - 1)%Z in
        if (pi - pl <? pr - pi)%nat
        then run f false t pl (pi - 1) cdepth ((pi + 1, pr, cdepth) :: stack)
        else run f false t (pi + 1) pr cdepth ((pl, pi - 1, cdepth) :: stack)
      else
        stack_pop (insertion_sort pl pr tosort)
  end.

End Keys.

(** [numpy.argsort(v, kind="quicksort")] *)
Definition argsort (v : list Z) : list nat :=
  let num := List.length v in
  run v (2 * num + 2) true (seq 0 num) 0 (num - 1)
      (2 * Z.log2 (Z.of_nat num)) [].

End NumpySort.

(** ** main.py *)
Module Main.
Import LinkExtractor ApiClient DataProcessor.

(** An entry of [SITES]; the two optional keys are read with [site.get]. *)
Record site : Type := mkSite {
  url : string;
  name : string;
  acf_field_name : option string;
  ignore_non_posts : option bool
}.

Section Run.
(** [config.py] is not part of the sources: its constants are parameters.
    [CSV_FILENAME] stands for [CSV_FILENAME.format(site_name=...)]. *)
Variable SITES : list site.
Variable CSV_FILENAME : string -> string.
Variable ACF_FIELD_NAME : string.
Variable IGNORE_NON_POSTS : bool.
(** The servers of the collection endpoints and of the single posts. *)
Variable listings : nat -> wp_url -> option (response listing).
Variable contents : nat -> wp_url -> option (response json).
(** The libraries: the check of network locations in [urlparse], numpy's
    [argsort], and [DataFrame.to_csv], which writes the file or raises. *)
Variable netloc_valid : string -> bool.
Variable argsort : list Z -> list nat.
Variable to_csv : string -> list row -> option exn.

(** [linked_post_id]: the identifier itself, or the slug resolved. *)
Definition linked_id (base_url : string) (ignore : bool) (l : link) : M (option Z) :=
  match l with
  | Id i => ret (Some i)
  | Slug slug => resolve_slug_to_id listings base_url slug ignore 3
  end.

(** [if linked_post_id:] is false on [None] and on [0]. *)
Definition is_true (linked_post_id : option Z) : bool :=
  match linked_post_id with
  | Some i => negb (i =? 0)%Z
  | None => false
  end.

(** One round of [for link in all_links]. *)
Definition add_link (base_url : string) (ignore : bool) (all_posts : list post)
           (post_id : Z) (l : link) (links_per_post : PyDict.t (list Z))
  : M (PyDict.t (list Z)) :=
  linked_post_id <- linked_id base_url ignore l ;;
  match linked_post_id with
  | Some i =>
      if is_true linked_post_id then
        if existsb (Z.eqb i) (map p_id all_posts) || negb ignore then
          ret (PyDict.append post_id i links_per_post)
        else
          log WARNING (NotAnArticle i l post_id) ;; ret links_per_post
      else
        log WARNING (LinkNotFound l post_id) ;; ret links_per_post
  | None =>
      log WARNING (LinkNotFound l post_id) ;; ret links_per_post
  end.

(** One round of [for post in all_posts]. *)
Definition add_post (base_url acf_field : string) (ignore : bool)
           (all_posts : list post) (p : post) (links_per_post : PyDict.t (list Z))
  : M (PyDict.t (list Z)) :=
  let post_id := p_id p in
  got <- get_post_content contents base_url post_id ;;
  let (post_content, acf_data) := got : json * json in
  internal_links <-
    (if truthy post_content
     then extract_internal_links netloc_valid post_content base_url
     else log WARNING (NoContent post_id) ;; ret []) ;;
  acf_links <-
    (if truthy acf_data
     then extract_acf_links acf_data acf_field
     else log WARNING (NoAcfData post_id) ;; ret []) ;;
  let all_links := map Slug internal_links ++ map Id acf_links in
  for_each (add_link base_url ignore all_posts post_id) all_links
           (PyDict.set post_id [] links_per_post).

(** The body of [for site in SITES]; [continue] is its early end. *)
Definition run_site (s : site) : M unit :=
  let base_url := url s in
  let csv_filename := CSV_FILENAME (name s) in
  let acf_field := match acf_field_name s with Some f => f | None => ACF_FIELD_NAME end in
  let ignore := match ignore_non_posts s with Some b => b | None => IGNORE_NON_POSTS end in
  log INFO (SiteStart base_url) ;;
  log INFO (FetchingPosts base_url) ;;
  all_posts <- get_all_posts listings base_url 100 ;;
  match all_posts with
  | [] => log ERROR (NoPostList base_url)                       (* continue *)
  | _ =>
      log INFO (PostsFound (List.length all_posts) base_url) ;;
      log INFO (ExtractingLinks base_url) ;;
      links_per_post <-
        for_each (add_post base_url acf_field ignore all_posts) all_posts [] ;;
      log INFO (ComputingIncoming base_url) ;;
      incoming_links <- calculate_incoming_links all_posts links_per_post ;;
      log INFO (BuildingFrame base_url) ;;
      df <- lift (build_dataframe argsort all_posts links_per_post incoming_links) ;;
      log INFO (Exporting csv_filename) ;;
      match to_csv csv_filename df with
      | Some e => raise e
      | None =>
          emit (Csv csv_filename df) ;;
          log INFO (SiteDone base_url)
      end
  end.

Definition run_sites (sites : list site) : M unit :=
  for_each (fun s _ => run_site s) sites tt.

Definition main : M unit :=
  try_except
    (log INFO Start ;;
     run_sites SITES ;;
     log INFO AllDone)
    (fun e => log ERROR (Unexpected e)).

End Run.
End Main.

(* ================================================================== *)
(** * Part II. The statements of the specification, and sample inputs *)
(* ================================================================== *)

(** ** Structured-field extraction, as the specification words it *)
Module AcfSpec.

(** The number a string of decimal digits denotes. *)
Fixpoint decimal_value (acc : Z) (s : string) : Z :=
  match s with
  | EmptyString => acc
  | String c r => decimal_value (acc * 10 + PyStr.digit_value c) r
  end.

(** An element coercible to a non-negative integer: a number that is not
    negative, or a string of decimal digits. *)
Definition coercible (x : json) : option Z :=
  match x with
  | JInt z => if (0 <=? z)%Z then Some z else None
  | JStr s => if PyStr.isdecimal s then Some (decimal_value 0 s) else None
  | _ => None
  end.

Definition keep_coercible (l : list json) : list Z :=
  flat_map (fun x => match coercible x with Some z => [z] | None => [] end) l.

(** The elements of a field: the pieces of a comma-separated string, the
    items of a sequence, nothing for an absent field. *)
Definition elements (field : option json) : list json :=
  match field with
  | Some (JStr s) => map (fun x => JStr (PyStr.strip x)) (PyStr.split "," s)
  | Some (JList l) => l
  | _ => []
  end.

(** Coercible elements kept in order, every other element dropped. *)
Definition acf_links (field : option json) : list Z :=
  keep_coercible (elements field).




End AcfSpec.

(** ** Anchor scraping, as the specification words it *)
Module LinksSpec.

(** The text after the last slash. *)
Fixpoint last_segment (s : string) : string :=
  match s with
  | EmptyString => EmptyString
  | String c r =>
      if Ascii.eqb c "/" then last_segment r
      else if PyStr.contains_char "/" r then last_segment r
      else s
  end.

(** A file extension among pdf, jpg, jpeg, png, gif. *)
Definition has_file_extension (s : string) : bool :=
  existsb (fun suffix => PyStr.endswith suffix (PyStr.lower s))
          LinkExtractor.file_suffixes.

(** The claim's order of steps: strip the trailing slash, skip the link
    when the final segment has a file extension, return the last segment. *)
Definition slug_as_stated (path : string) : option string :=
  let segment := last_segment (PyStr.rstrip_char "/" path) in
  if has_file_extension segment then None else Some segment.

(** The code's order: the extension is tested on the path as it stands,
    then the trailing slash is stripped and the last segment returned. *)
Definition slug_as_coded (path : string) : option string :=
  if has_file_extension path then None
  else Some (last_segment (PyStr.rstrip_char "/" path)).

Definition kept (slug : option string) : list string :=
  match slug with Some s => [s] | None => [] end.


Definition any_netloc (netloc : string) : bool := true.

End LinksSpec.

(** ** The aggregation and the report, as the specification words them *)
Module ReportSpec.
Import DataProcessor.

(** The number of entries across all the sequences of a link map. *)
Definition total_links (d : PyDict.t (list Z)) : nat :=
  list_sum (map (fun kv => List.length (snd kv)) d).

(** Every target of the outgoing-link map is the identifier of an article. *)
Definition targets_known (all_posts : list post) (links_per_post : PyDict.t (list Z))
  : bool :=
  forallb (fun kv => forallb (fun t => existsb (Z.eqb t) (map p_id all_posts))
                             (snd kv))
          links_per_post.

(** The sample data of [core/data_processor.py]. *)
Definition ALL_POSTS : list post :=
  [Post 1 "home"; Post 2 "about-us"; Post 3 "services"; Post 4 "contacts"].

Definition LINKS_PER_POST : PyDict.t (list Z) :=
  [(1, [2; 3]); (2, [4]); (3, []); (4, [1])]%Z.

Fixpoint ascending (l : list Z) : bool :=
  match l with
  | a :: (b :: _) as r => (a <=? b)%Z && ascending r
  | _ => true
  end.









End ReportSpec.

(** [raise_for_status] lets the response through. *)
Definition passes {B} (r : response B) : Prop :=
  (400 <=? status_code r)%Z && (status_code r <? 600)%Z = false.

(** ** The article directory, as a walk over the pages served *)
Module DirectorySpec.
Import ApiClient.

(** A server that answers every request for page [k] of the posts with the
    [k]-th of [pages] and the header [total], and has nothing else. *)
Definition serving (total : option string) (pages : list listing)
  : nat -> wp_url -> option (response listing) :=
  fun _ u =>
    match u with
    | PostsPage _ _ page =>
        if (1 <=? page)%Z then
          match nth_error pages (Z.to_nat (page - 1)) with
          | Some b => Some (mkResponse 200 total b)
          | None => None
          end
        else None
    | _ => None
    end.






End DirectorySpec.

(** ** Sample servers and sites *)
Module Samples.

(** The slug [contact] names a page with the identifier 7 and no post. *)
Definition page_only (n : nat) (u : wp_url) : option (response listing) :=
  match u with
  | BySlug Posts _ _ => Some (mkResponse 200 None (LList []))
  | BySlug Pages _ _ =>
      Some (mkResponse 200 None (LList [Obj (Some 7%Z) (Some "contact")]))
  | _ => None
  end.

(** The posts found by slug come without their [id]. *)
Definition no_id (n : nat) (u : wp_url) : option (response listing) :=
  match u with
  | BySlug Posts _ slug => Some (mkResponse 200 None (LList [Obj None (Some slug)]))
  | _ => None
  end.

(** The slug resolves to the identifier 0. *)
Definition zero_id (n : nat) (u : wp_url) : option (response listing) :=
  match u with
  | BySlug Posts _ slug => Some (mkResponse 200 None (LList [Obj (Some 0%Z) (Some slug)]))
  | _ => None
  end.

(** Two sites of one article each, without links; the export of the first
    report fails. *)
Definition two_sites : list Main.site :=
  [Main.mkSite "https://first.example" "first" None None;
   Main.mkSite "https://second.example" "second" None None].

Definition one_article (n : nat) (u : wp_url) : option (response listing) :=
  match u with
  | PostsPage _ _ 1 =>
      Some (mkResponse 200 (Some "1") (LList [Obj (Some 1%Z) (Some "one")]))
  | _ => None
  end.

Definition plain_content (n : nat) (u : wp_url) : option (response json) :=
  match u with
  | PostById _ _ =>
      Some (mkResponse 200 None
              (JDict [("content", JDict [("rendered", JStr "<p>text</p>")])]))
  | _ => None
  end.

Definition csv_name (site_name : string) : string := String.append site_name ".csv".

Definition first_export_fails (csv_filename : string) (df : list row) : option exn :=
  if String.eqb csv_filename "first.csv" then Some OSError else None.

Definition two_sites_run : M unit :=
  Main.main two_sites csv_name "related-posts" true one_article plain_content
            LinksSpec.any_netloc NumpySort.argsort first_export_fails.

End Samples.

(** ** Retries *)
Module RetrySpec.

(** The delays slept through, in order. *)
Definition sleeps (tr : list event) : list Z :=
  flat_map (fun ev => match ev with Sleep s => [s] | _ => [] end) tr.

(** [n] delays that double, from [2 ^ from] seconds. *)
Definition backoff (from : Z) (n : nat) : list Z :=
  map (fun k => (2 ^ (from + Z.of_nat k))%Z) (seq 0 n).

(** Request number [k], sent to [u], gets a response that
    [raise_for_status] lets through. *)
Definition answered {B} (server : nat -> wp_url -> option (response B))
           (u : wp_url) (k : nat) : bool :=
  match server k u with
  | Some r => negb ((400 <=? status_code r)%Z && (status_code r <? 600)%Z)
  | None => false
  end.

(** The exception that [requests.get] or [raise_for_status] raises on
    request number [k] when it is not answered. *)
Definition failure {B} (server : nat -> wp_url -> option (response B))
           (u : wp_url) (k : nat) : exn :=
  match server k u with
  | Some r => HTTPError (status_code r)
  | None => ConnectionError
  end.

End RetrySpec.

(** ** The link graph of an outgoing-link map *)
Module GraphSpec.

(** The links of the map, source first, in the order of the traversal. *)
Definition links (links_per_post : PyDict.t (list Z)) : list (Z * Z) :=
  flat_map (fun kv => map (pair (fst kv)) (snd kv)) links_per_post.

(** The identifier is one of an article. *)
Definition known (all_posts : list post) (t : Z) : bool :=
  existsb (Z.eqb t) (map p_id all_posts).

(** The sources of the links to [t], one per link, in order. *)
Definition sources_of (t : Z) (ls : list (Z * Z)) : list Z :=
  map fst (filter (fun l => (snd l =? t)%Z) ls).

(** The links whose target is no article. *)
Definition dangling (all_posts : list post) (ls : list (Z * Z)) : list (Z * Z) :=
  filter (fun l => negb (known all_posts (snd l))) ls.

End GraphSpec.

(** ** Files written and exceptions let through *)
Module EffectSpec.

(** The files of a trace: name and frame of each export, oldest first. *)
Definition exports (tr : list event) : list (string * list row) :=
  flat_map (fun ev => match ev with
                      | Csv csv_filename df => [(csv_filename, df)]
                      | _ => []
                      end) tr.

(** The computation writes no file, and an exception it raises is one
    of [P]. *)
Definition quiet {A} (P : exn -> Prop) (m : M A) : Prop :=
  forall st,
    exports (trace (snd (m st))) = exports (trace st)
    /\ forall e, fst (m st) = Raise e -> P e.

Definition never : exn -> Prop := fun _ => False.

(** The file names of the sites, in the order of [SITES]. *)
Definition csv_names (CSV_FILENAME : string -> string) (sites : list Main.site)
  : list string :=
  map (fun s => CSV_FILENAME (Main.name s)) sites.

End EffectSpec.

(** ** The ways the run of a site ends *)
Module RunSpec.
Import EffectSpec.

(** The computation ends in one of two ways.  It writes no file, and it
    returns, or raises the NameError of the resolver, or raises what
    [to_csv] raised for the file; or it returns after [to_csv] has written
    the file once. *)
Definition outcome (to_csv : string -> list row -> option exn)
           (csv_filename : string) (m : M unit) : Prop :=
  forall st,
    (exports (trace (snd (m st))) = exports (trace st)
     /\ (fst (m st) = Ok tt
         \/ fst (m st) = Raise (NameError "url")
         \/ exists df e, to_csv csv_filename df = Some e /\ fst (m st) = Raise e))
    \/ (exists df,
           to_csv csv_filename df = None
           /\ fst (m st) = Ok tt
           /\ exports (trace (snd (m st)))
              = exports (trace st) ++ [(csv_filename, df)]).

End RunSpec.

(** ** More sample data *)
Module SiteSamples.

(** Every post has the same content and the related posts 1 and 9. *)
Definition with_related (n : nat) (u : wp_url) : option (response json) :=
  match u with
  | PostById _ _ =>
      Some (mkResponse 200 None
              (JDict [("content", JDict [("rendered", JStr "<p>text</p>")]);
                      ("acf", JDict [("related-posts", JList [JInt 1; JInt 9])])]))
  | _ => None
  end.

(** The loop of [main] over the one article of a site. *)
Definition one_article_links (ignore : bool) : M (PyDict.t (list Z)) :=
  for_each (Main.add_post Samples.page_only with_related LinksSpec.any_netloc
                          "https://example.com" "related-posts" ignore
                          [Post 1 "one"])
           [Post 1 "one"] [].

(** The server that answers nothing. *)
Definition down {B} (n : nat) (u : wp_url) : option (response B) := None.

End SiteSamples.

(* ================================================================== *)
(** * Part III. Properties *)
(* ================================================================== *)

Ltac ascii_cases c := destruct c as [[|] [|] [|] [|] [|] [|] [|] [|]].

(** ** Strings *)
Module PyStrFacts.
Import PyStr.





Lemma rstrip_by_none (p : ascii -> bool) (s : string) :
  all_chars (fun c => negb (p c)) s = true -> rstrip_by p s = s.
Proof.
  induction s as [|c r IH]; simpl; [reflexivity|]. intros H.
  apply andb_true_iff in H as [Hc Hr]. rewrite (IH Hr).
  destruct r; [|reflexivity]. apply negb_true_iff in Hc. now rewrite Hc.
Qed.

Lemma strip_by_none (p : ascii -> bool) (s : string) :
  all_chars (fun c => negb (p c)) s = true -> strip_by p s = s.
Proof.
  intros H. unfold strip_by.
  assert (E : lstrip_by p s = s).
  { destruct s as [|c r]; simpl in *; [reflexivity|].
    apply andb_true_iff in H as [Hc _]. apply negb_true_iff in Hc. now rewrite Hc. }
  rewrite E. now apply rstrip_by_none.
Qed.





Lemma string_of_uint_nonempty (d : Decimal.uint) :
  d <> Decimal.Nil -> nonempty (NilEmpty.string_of_uint d) = true.
Proof. destruct d; simpl; congruence. Qed.

(** [str(n).isdigit()] holds exactly when [n] is not negative. *)
Lemma isdigit_str_int (n : Z) : isdigit (str_int n) = (0 <=? n)%Z.
Proof.
  unfold str_int, isdigit. destruct n as [|p|p]; simpl.
  - reflexivity.
  - rewrite string_of_uint_nonempty by apply Unsigned.to_uint_nonnil.
    simpl. clear. generalize (Pos.to_uint p). intros d.
    induction d; simpl; auto.
  - reflexivity.
Qed.

Lemma split_nonempty (d : ascii) (s : string) : split d s <> [].
Proof.
  induction s as [|c r IH]; simpl; [discriminate|].
  destruct (Ascii.eqb c d); [discriminate|]. destruct (split d r); discriminate.
Qed.

End PyStrFacts.

(** ** Structured-field extraction *)
Module AcfFacts.
Import PyStr PyStrFacts LinkExtractor AcfSpec.



Lemma is_digit_item_int (z : Z) : is_digit_item (JInt z) = (0 <=? z)%Z.
Proof. unfold is_digit_item. cbn [str_of]. apply isdigit_str_int. Qed.






End AcfFacts.

(** ** Anchor scraping *)
Module LinksFacts.
Import PyStr PyStrFacts LinkExtractor LinksSpec.

(** A string without a slash is its own single piece; with a slash there
    are at least two pieces. *)
Lemma split_slash (s : string) :
  if contains_char "/" s
  then exists h t, split "/" s = h :: t /\ t <> []
  else split "/" s = [s].
Proof.
  induction s as [|c r IH]; [reflexivity|]. cbn [contains_char split].
  destruct (Ascii.eqb c "/") eqn:E; cbn [orb].
  - exists EmptyString, (split "/" r). split; [reflexivity|apply split_nonempty].
  - destruct (contains_char "/" r).
    + destruct IH as (h & t & -> & Ht). now exists (String c h), t.
    + now rewrite IH.
Qed.

Lemma last_cons_nonempty {A} (x : A) (l : list A) (d : A) :
  l <> [] -> List.last (x :: l) d = List.last l d.
Proof. destruct l; [congruence|reflexivity]. Qed.

(** [s.split("/")[-1]] is the text after the last slash. *)
Lemma last_split (s : string) :
  List.last (split "/" s) EmptyString = last_segment s.
Proof.
  induction s as [|c r IH]; [reflexivity|]. cbn [split last_segment].
  pose proof (split_slash r) as S.
  destruct (Ascii.eqb c "/").
  - now rewrite last_cons_nonempty by apply split_nonempty.
  - destruct (contains_char "/" r).
    + destruct S as (h & t & E & Ht). rewrite E in *.
      rewrite last_cons_nonempty by assumption.
      now rewrite <- IH, last_cons_nonempty by assumption.
    + now rewrite S.
Qed.

(** Stripping the leading slashes does not change the last segment. *)
Lemma last_segment_strip (s : string) :
  last_segment (strip_char "/" s) = last_segment (rstrip_char "/" s).
Proof.
  unfold strip_char, rstrip_char, strip_by.
  induction s as [|c r IH]; [reflexivity|]. cbn [lstrip_by].
  destruct (Ascii.eqb "/" c) eqn:E; [|reflexivity].
  rewrite IH. cbn [rstrip_by]. rewrite E.
  apply Ascii.eqb_eq in E. subst c.
  destruct (rstrip_by (Ascii.eqb "/") r); reflexivity.
Qed.

Lemma last_segment_no_slash (s : string) :
  contains_char "/" (last_segment s) = false.
Proof.
  induction s as [|c r IH]; [reflexivity|]. cbn [last_segment].
  destruct (Ascii.eqb c "/") eqn:E; [exact IH|].
  destruct (contains_char "/" r) eqn:C; [exact IH|].
  cbn [contains_char]. now rewrite E, C.
Qed.


Lemma slug_of_path_coded (path : string) : slug_of_path path = slug_as_coded path.
Proof.
  unfold slug_of_path, slug_as_coded, has_file_extension.
  destruct (existsb _ file_suffixes); [reflexivity|].
  now rewrite last_split, last_segment_strip.
Qed.

(** The loop over the matches, as one pass over their paths. *)
Lemma internal_links_of_paths (netloc_valid : string -> bool) (links : list string) :
  internal_links_of netloc_valid links
  = match map_result (UrlParse.path netloc_valid) links with
    | Ok paths => Ok (flat_map (fun p => kept (slug_of_path p)) paths)
    | Raise e => Raise e
    end.
Proof.
  induction links as [|l links IH]; [reflexivity|]. cbn [internal_links_of map_result].
  destruct (UrlParse.path netloc_valid l) as [p|e]; [|reflexivity].
  rewrite IH. destruct (map_result (UrlParse.path netloc_valid) links); [|reflexivity].
  cbn [flat_map]. destruct (slug_of_path p); reflexivity.
Qed.


(** On the two inputs of the specification the two orders of steps
    agree. *)
Lemma slug_as_stated_examples :
  slug_as_stated "/about" = slug_of_path "/about"
  /\ slug_as_stated "/files/report.pdf" = slug_of_path "/files/report.pdf".
Proof. split; reflexivity. Qed.


End LinksFacts.

(** ** Dicts *)
Module PyDictFacts.
Import PyDict ReportSpec.

Lemma mem_set {V} (k k' : Z) (v : V) (d : t V) :
  mem k (set k' v d) = (k =? k')%Z || mem k d.
Proof.
  unfold mem. induction d as [|[k0 v0] d IH]; cbn [set get].
  - now destruct (k =? k')%Z.
  - destruct (k' =? k0)%Z eqn:E; cbn [get].
    + apply Z.eqb_eq in E. subst k0. now destruct (k =? k')%Z.
    + destruct (k =? k0)%Z eqn:F; [now rewrite orb_true_r|]. exact IH.
Qed.

Lemma mem_append {A} (k k' : Z) (x : A) (d : t (list A)) :
  mem k (append k' x d) = mem k d.
Proof.
  unfold mem. induction d as [|[k0 l] d IH]; [reflexivity|]. cbn [append get].
  destruct (k' =? k0)%Z; cbn [get]; destruct (k =? k0)%Z; auto.
Qed.

Lemma total_cons (k : Z) (l : list Z) (d : t (list Z)) :
  total_links ((k, l) :: d) = List.length l + total_links d.
Proof. reflexivity. Qed.

(** Appending under a present key adds one entry. *)
Lemma total_append (k x : Z) (d : t (list Z)) :
  mem k d = true -> total_links (append k x d) = S (total_links d).
Proof.
  unfold mem. induction d as [|[k0 l] d IH]; [discriminate|].
  cbn [get append]. destruct (k =? k0)%Z; rewrite !total_cons; intros H.
  - rewrite length_app. cbn [List.length]. lia.
  - rewrite (IH H). lia.
Qed.

Lemma total_set_empty (k : Z) (d : t (list Z)) :
  total_links d = 0 -> total_links (set k [] d) = 0.
Proof.
  induction d as [|[k0 l] d IH]; [reflexivity|].
  cbn [set]. rewrite total_cons. intros H.
  destruct (k =? k0)%Z; rewrite total_cons; cbn [List.length]; [lia|].
  rewrite IH; lia.
Qed.

End PyDictFacts.

(** ** Aggregation *)
Module AggregateFacts.
Import PyDict PyDictFacts DataProcessor ReportSpec.

(** The dict of empty sequences that [calculate_incoming_links] starts
    from: no entry, and a key for every article. *)
Lemma initial_incoming (all_posts : list post) (d : t (list Z)) :
  total_links d = 0 ->
  let d' := fold_left (fun d p => set (p_id p) [] d) all_posts d in
  total_links d' = 0
  /\ forall k, mem k d' = existsb (Z.eqb k) (map p_id all_posts) || mem k d.
Proof.
  revert d. induction all_posts as [|p ps IH]; intros d H; cbn [fold_left map existsb].
  - now split.
  - destruct (IH (set (p_id p) [] d) (total_set_empty _ _ H)) as [T Mem].
    split; [exact T|]. intros k. rewrite Mem, mem_set.
    destruct (k =? p_id p)%Z, (existsb (Z.eqb k) (map p_id ps)); reflexivity.
Qed.

(** The links of one source, all to known targets: one entry each. *)
Lemma add_incoming_known (post_id : Z) (targets : list Z) :
  forall (d : t (list Z)) (st : state),
    forallb (fun t => mem t d) targets = true ->
    exists d',
      for_each (add_incoming post_id) targets d st = (Ok d', st)
      /\ total_links d' = total_links d + List.length targets
      /\ forall k, mem k d' = mem k d.
Proof.
  induction targets as [|x targets IH]; intros d st H; cbn [for_each].
  - exists d. repeat split. cbn. lia.
  - cbn [forallb] in H. apply andb_true_iff in H as [Hx Ht].
    unfold bind at 1, add_incoming at 1. rewrite Hx. unfold ret at 1.
    destruct (IH (append x post_id d) st) as (d' & R & T & Mem).
    { rewrite forallb_forall in *. intros y Hy. rewrite mem_append. now apply Ht. }
    exists d'. split; [exact R|]. split.
    + rewrite T, (total_append _ _ _ Hx). cbn [List.length]. lia.
    + intros k. now rewrite Mem, mem_append.
Qed.

Lemma add_all_known (links_per_post : t (list Z)) :
  forall (d : t (list Z)) (st : state),
    forallb (fun kv => forallb (fun t => mem t d) (snd kv)) links_per_post = true ->
    exists d',
      for_each (fun '(post_id, outgoing_links) =>
                  for_each (add_incoming post_id) outgoing_links)
               links_per_post d st = (Ok d', st)
      /\ total_links d' = total_links d + total_links links_per_post.
Proof.
  induction links_per_post as [|[src targets] L IH]; intros d st H; cbn [for_each].
  - exists d. split; [reflexivity|]. cbn. lia.
  - cbn [forallb snd] in H. apply andb_true_iff in H as [Hs HL].
    destruct (add_incoming_known src targets d st Hs) as (d1 & R1 & T1 & Mem1).
    unfold bind at 1. rewrite R1.
    destruct (IH d1 st) as (d' & R & T).
    { rewrite forallb_forall in *. intros kv Hkv. specialize (HL kv Hkv).
      rewrite forallb_forall in *. intros y Hy. rewrite Mem1. now apply HL. }
    exists d'. split; [exact R|].
    rewrite T, T1, total_cons. lia.
Qed.

(** C6.  When every target of the outgoing-link map [L] is an article of
    [A], [calculate_incoming_links A L] returns, without a warning, an
    incoming-link map whose sequences hold as many entries in total as the
    sequences of [L]. *)
Theorem link_count_conserved
        (all_posts : list post) (links_per_post : PyDict.t (list Z)) (st : state) :
  targets_known all_posts links_per_post = true ->
  exists incoming_links,
    calculate_incoming_links all_posts links_per_post st = (Ok incoming_links, st)
    /\ total_links incoming_links = total_links links_per_post.
Proof.
  intros H. unfold calculate_incoming_links.
  destruct (initial_incoming all_posts [] eq_refl) as [T0 Mem0].
  destruct (add_all_known links_per_post
              (fold_left (fun d p => set (p_id p) [] d) all_posts []) st)
    as (d' & R & T).
  - unfold targets_known in H. rewrite forallb_forall in *. intros kv Hkv.
    specialize (H kv Hkv). rewrite forallb_forall in *. intros y Hy.
    rewrite Mem0, (H y Hy). reflexivity.
  - exists d'. split; [exact R|]. rewrite T, T0. reflexivity.
Qed.

(** The sample data of the module: four links out, four links in. *)
Lemma link_count_conserved_sample :
  targets_known ALL_POSTS LINKS_PER_POST = true
  /\ exists incoming_links,
       calculate_incoming_links ALL_POSTS LINKS_PER_POST init
       = (Ok incoming_links, init)
       /\ total_links incoming_links = total_links LINKS_PER_POST.
Proof.
  split; [reflexivity|].
  apply (link_count_conserved ALL_POSTS LINKS_PER_POST init). reflexivity.
Defined.

End AggregateFacts.

(** ** The report *)
Module ReportFacts.
Import DataProcessor ReportSpec.











Section AnyArgsort.
Variable argsort : list Z -> list nat.



End AnyArgsort.



End ReportFacts.

(** ** Requests *)
Module RequestFacts.
Import ApiClient.

(** A request answered at once costs one request and logs nothing. *)
Lemma make_request_answered {B} (server : nat -> wp_url -> option (response B))
      (u : wp_url) (r : response B) (st : state) :
  server (sent st) u = Some r -> passes r ->
  _make_request server u 3 st = (Ok (Some r), mkState (S (sent st)) (trace st)).
Proof.
  intros H P. unfold _make_request. change (Z.to_nat 3) with 3%nat.
  cbn [make_request_from]. unfold try_except, bind, requests_get, raise_for_status.
  rewrite H. unfold passes in P. rewrite P. reflexivity.
Qed.


End RequestFacts.

(** ** The article directory *)
Module DirectoryFacts.
Import ApiClient RequestFacts DirectorySpec.



Section Serving.
Variable total : option string.
Variable pages : list listing.
Variables (base_url : string) (per_page : Z).



End Serving.










End DirectoryFacts.

(** ** Reference resolution *)
Module ResolveFacts.
Import LinkExtractor RequestFacts Samples.

Section AnyServer.
Variable listings : nat -> wp_url -> option (response listing).

(** With [ignore_non_posts] set, an empty answer of the posts endpoint ends
    the resolution after one request. *)
Lemma resolve_posts_only (base_url slug : string) (r : response listing)
      (st : state) :
  listings (sent st) (BySlug Posts base_url slug) = Some r ->
  passes r ->
  listing_truthy (body r) = false ->
  resolve_slug_to_id listings base_url slug true 3 st
  = (Ok None,
     mkState (S (sent st)) (trace st ++ [Log WARNING (SlugNoId slug)])).
Proof.
  intros H P T. unfold resolve_slug_to_id. change (Z.to_nat 3) with 3%nat.
  cbn [resolve_from]. unfold try_except, lookups, bind, lookup, bind.
  unfold requests_get, raise_for_status. rewrite H. unfold passes in P.
  rewrite P. cbn [ret body]. rewrite T. reflexivity.
Qed.

(** A first answer that is true and has no [id] to read raises NameError:
    the handler of unexpected errors names a variable that is not bound. *)
Lemma resolve_unexpected (base_url slug : string) (ignore_non_posts : bool)
      (r : response listing) (e : exn) (st : state) :
  listings (sent st) (BySlug Posts base_url slug) = Some r ->
  passes r ->
  listing_truthy (body r) = true ->
  first_id (body r) = Raise e ->
  resolve_slug_to_id listings base_url slug ignore_non_posts 3 st
  = (Raise (NameError "url"), mkState (S (sent st)) (trace st)).
Proof.
  intros H P T F. unfold resolve_slug_to_id. change (Z.to_nat 3) with 3%nat.
  cbn [resolve_from]. unfold try_except, lookups, bind, lookup, bind.
  unfold requests_get, raise_for_status. rewrite H. unfold passes in P.
  rewrite P. cbn [ret body]. rewrite T. unfold lift. rewrite F.
  assert (N : is_request_exception e = false).
  { destruct (body r) as [[|[[i|] s|] l]|ks| |b|z|[|c s]]; cbn in F;
      try discriminate; injection F as <-; reflexivity. }
  rewrite N. reflexivity.
Qed.

End AnyServer.

(** Exhausting the attempts on a server that never answers gives [None]. *)
Lemma resolve_unreachable (base_url slug : string) (ignore_non_posts : bool) :
  value (resolve_slug_to_id (fun _ _ => None) base_url slug ignore_non_posts 3)
  = Ok None.
Proof. reflexivity. Qed.

(** C5, at the failing input.  The posts endpoint answers the slug with a
    list whose first object has no [id]: [resolve_slug_to_id] does not
    return, it raises NameError to its caller after one request. *)
Theorem resolve_slug_to_id_raises :
  resolve_slug_to_id no_id "https://example.com" "about" true 3 init
  = (Raise (NameError "url"), mkState 1 []).
Proof. reflexivity. Qed.

(** C1 as stated fails: the slug names a page and no post; with
    [ignore_non_posts] set the resolver returns nothing, not the page's
    identifier 7, which it finds only with the flag cleared. *)
Lemma resolve_ignores_page :
  value (resolve_slug_to_id page_only "https://example.com" "contact" true 3)
  = Ok None
  /\ value (resolve_slug_to_id page_only "https://example.com" "contact" true 3)
     <> Ok (Some 7%Z)
  /\ value (resolve_slug_to_id page_only "https://example.com" "contact" false 3)
     = Ok (Some 7%Z).
Proof. split; [|split]; try reflexivity. discriminate. Qed.

End ResolveFacts.

(** ** The orchestration *)
Module MainFacts.
Import LinkExtractor RequestFacts ResolveFacts Samples Main.

Section AnyServer.
Variable listings : nat -> wp_url -> option (response listing).

(** C10.  A reference whose resolution gives the integer 0, read from the
    structured field or returned by the resolver, fails the test
    [if linked_post_id:]: the step logs it as not found and leaves the
    outgoing-link map as it was. *)
Theorem zero_id_not_appended
        (base_url : string) (ignore : bool) (all_posts : list post) (post_id : Z)
        (l : link) (links_per_post : PyDict.t (list Z)) (st st' : state) :
  linked_id listings base_url ignore l st = (Ok (Some 0%Z), st') ->
  add_link listings base_url ignore all_posts post_id l links_per_post st
  = (Ok links_per_post,
     mkState (sent st') (trace st' ++ [Log WARNING (LinkNotFound l post_id)])).
Proof.
  intros H. unfold add_link, bind. rewrite H. reflexivity.
Qed.

(** C1, amended.  With [ignore_non_posts] set, a slug that the posts
    endpoint answers with an empty list is not looked up among the pages or
    the categories: [resolve_slug_to_id] returns nothing after that one
    request, whether or not a page has the slug, and the step of [main]
    logs the reference as not found and leaves the outgoing-link map as it
    was. *)
Theorem page_slug_not_resolved
        (base_url slug : string) (r : response listing) (all_posts : list post)
        (post_id : Z) (links_per_post : PyDict.t (list Z)) (st : state) :
  listings (sent st) (BySlug Posts base_url slug) = Some r ->
  passes r ->
  listing_truthy (body r) = false ->
  resolve_slug_to_id listings base_url slug true 3 st
  = (Ok None, mkState (S (sent st)) (trace st ++ [Log WARNING (SlugNoId slug)]))
  /\ add_link listings base_url true all_posts post_id (Slug slug) links_per_post st
     = (Ok links_per_post,
        mkState (S (sent st))
                (trace st ++ [Log WARNING (SlugNoId slug);
                              Log WARNING (LinkNotFound (Slug slug) post_id)])).
Proof.
  intros H P T. pose proof (resolve_posts_only listings _ _ _ _ H P T) as R.
  split; [exact R|].
  unfold add_link, bind, linked_id. rewrite R. unfold log, emit. cbn.
  now rewrite <- app_assoc.
Qed.

End AnyServer.

(** The identifier 0 in the structured field, and a slug resolved to 0. *)
Lemma zero_id_not_appended_sample :
  (linked_id zero_id "https://example.com" true (Id 0) init = (Ok (Some 0%Z), init)
   /\ add_link zero_id "https://example.com" true [Post 1 "one"] 1 (Id 0)
               [(1%Z, [])] init
      = (Ok [(1%Z, [])], mkState 0 [Log WARNING (LinkNotFound (Id 0) 1)]))
  /\ (linked_id zero_id "https://example.com" true (Slug "zero") init
      = (Ok (Some 0%Z), mkState 1 [])
      /\ add_link zero_id "https://example.com" true [Post 1 "one"] 1 (Slug "zero")
                  [(1%Z, [])] init
         = (Ok [(1%Z, [])], mkState 1 [Log WARNING (LinkNotFound (Slug "zero") 1)])).
Proof.
  split; (split; [reflexivity|]).
  - apply (zero_id_not_appended zero_id "https://example.com" true [Post 1 "one"] 1
             (Id 0) [(1%Z, [])] init init). reflexivity.
  - apply (zero_id_not_appended zero_id "https://example.com" true [Post 1 "one"] 1
             (Slug "zero") [(1%Z, [])] init (mkState 1 [])). reflexivity.
Defined.

(** The slug [contact], which names a page and no post. *)
Lemma page_slug_not_resolved_sample :
  page_only 0 (BySlug Posts "https://example.com" "contact")
  = Some (mkResponse 200 None (LList []))
  /\ resolve_slug_to_id page_only "https://example.com" "contact" true 3 init
     = (Ok None, mkState 1 [Log WARNING (SlugNoId "contact")])
  /\ add_link page_only "https://example.com" true [Post 1 "one"] 1 (Slug "contact")
              [(1%Z, [])] init
     = (Ok [(1%Z, [])],
        mkState 1 [Log WARNING (SlugNoId "contact");
                   Log WARNING (LinkNotFound (Slug "contact") 1)]).
Proof.
  split; [reflexivity|].
  apply (page_slug_not_resolved page_only "https://example.com" "contact"
           (mkResponse 200 None (LList [])) [Post 1 "one"] 1 [(1%Z, [])] init);
    reflexivity.
Defined.

Section Run.
Variable CSV_FILENAME : string -> string.
Variable ACF_FIELD_NAME : string.
Variable IGNORE_NON_POSTS : bool.
Variable listings : nat -> wp_url -> option (response listing).
Variable contents : nat -> wp_url -> option (response json).
Variable netloc_valid : string -> bool.
Variable argsort : list Z -> list nat.
Variable to_csv : string -> list row -> option exn.

Local Abbreviation site_run :=
  (run_site CSV_FILENAME ACF_FIELD_NAME IGNORE_NON_POSTS
            listings contents netloc_valid argsort to_csv).
Local Abbreviation sites_run :=
  (run_sites CSV_FILENAME ACF_FIELD_NAME IGNORE_NON_POSTS
             listings contents netloc_valid argsort to_csv).
Local Abbreviation main_run sites :=
  (main sites CSV_FILENAME ACF_FIELD_NAME IGNORE_NON_POSTS
        listings contents netloc_valid argsort to_csv).

(** The loop over the sites runs them in order and stops at the first that
    raises. *)
Lemma run_sites_app (before rest : list site) (st : state) :
  sites_run (before ++ rest) st
  = match sites_run before st with
    | (Ok _, st1) => sites_run rest st1
    | (Raise e, st1) => (Raise e, st1)
    end.
Proof.
  unfold run_sites. revert st.
  induction before as [|s before IH]; intros st; [reflexivity|].
  cbn [app for_each]. unfold bind.
  destruct (run_site _ _ _ _ _ _ _ _ s st) as [[[]|e] st1]; [apply IH|reflexivity].
Qed.

(** [main] returns, whatever happens inside. *)
Lemma main_returns (sites : list site) (st : state) :
  exists st', main_run sites st = (Ok tt, st').
Proof.
  unfold main, try_except.
  match goal with
  | |- exists _, match ?m with _ => _ end = _ => destruct m as [[[]|e] st1]
  end; eexists; reflexivity.
Qed.

(** C9, amended.  One handler surrounds the loop over the sites.  When the
    run of a site raises, the error is logged and [main] returns: the sites
    before it have run, and no site after it is started, whatever the
    rest of the list is. *)
Theorem main_stops_at_first_error
        (before : list site) (s : site) (after : list site)
        (st0 st1 st2 : state) (e : exn) :
  sites_run before (mkState (sent st0) (trace st0 ++ [Log INFO Start])) = (Ok tt, st1) ->
  site_run s st1 = (Raise e, st2) ->
  main_run (before ++ s :: after) st0
  = (Ok tt, mkState (sent st2) (trace st2 ++ [Log ERROR (Unexpected e)])).
Proof.
  intros B S. unfold main, try_except.
  unfold bind at 1, log at 1, emit at 1. unfold bind at 1.
  rewrite run_sites_app, B.
  unfold run_sites. cbn [for_each]. unfold bind at 1.
  rewrite S. reflexivity.
Qed.

End Run.

(** The two sites: the export of the first report fails. *)
Lemma main_stops_at_first_error_sample :
  exists st2,
    run_site csv_name "related-posts" true one_article plain_content
             LinksSpec.any_netloc NumpySort.argsort first_export_fails
             (mkSite "https://first.example" "first" None None)
             (mkState 0 [Log INFO Start])
    = (Raise OSError, st2)
    /\ two_sites_run init
       = (Ok tt, mkState (sent st2) (trace st2 ++ [Log ERROR (Unexpected OSError)])).
Proof.
  eexists. split; [vm_compute; reflexivity|].
  apply (main_stops_at_first_error csv_name "related-posts" true one_article
           plain_content LinksSpec.any_netloc NumpySort.argsort first_export_fails
           [] (mkSite "https://first.example" "first" None None)
           [mkSite "https://second.example" "second" None None]
           init (mkState 0 [Log INFO Start]) _ OSError);
    reflexivity.
Defined.

(** C9 as stated fails: the export of the first site's report raises, the
    handler logs it, and the second site, which runs to its export when it
    is alone, is never started. *)
Lemma second_site_never_runs :
  value two_sites_run = Ok tt
  /\ In (Log ERROR (Unexpected OSError)) (logged two_sites_run)
  /\ ~ In (Log INFO (SiteStart "https://second.example")) (logged two_sites_run)
  /\ In (Log INFO (SiteDone "https://second.example"))
        (logged (main [mkSite "https://second.example" "second" None None]
                      csv_name "related-posts" true one_article plain_content
                      LinksSpec.any_netloc NumpySort.argsort first_export_fails)).
Proof.
  split; [reflexivity|]. split; [vm_compute; tauto|]. split.
  - intros H. vm_compute in H.
    repeat (destruct H as [H|H]; [discriminate|]). exact H.
  - vm_compute. tauto.
Qed.

End MainFacts.

(** ** Retries of [_make_request] *)
Module RetryFacts.
Import ApiClient RetrySpec.

Lemma sleeps_app (a b : list event) : sleeps (a ++ b) = sleeps a ++ sleeps b.
Proof. apply flat_map_app. Qed.

Section AnyServer.
Context {B : Type}.
Variable server : nat -> wp_url -> option (response B).
Variable u : wp_url.
Variable max_attempts : Z.

(** One round of the loop. *)
Lemma make_request_round (n : nat) (attempt : Z) (st : state) :
  make_request_from server (S n) attempt u max_attempts st
  = if answered server u (sent st)
    then (Ok (server (sent st) u), mkState (S (sent st)) (trace st))
    else
      let failed := Log WARNING (RequestFailed u (attempt + 1) max_attempts
                                               (failure server u (sent st))) in
      if (attempt <? max_attempts - 1)%Z
      then make_request_from server n (attempt + 1) u max_attempts
             (mkState (S (sent st))
                      (trace st ++ [failed; Log INFO (RetryIn (2 ^ attempt));
                                    Sleep (2 ^ attempt)]))
      else (Ok None,
            mkState (S (sent st))
                    (trace st ++ [failed;
                                  Log ERROR (GaveUp max_attempts
                                               (failure server u (sent st)))])).
Proof.
  cbn [make_request_from]. unfold answered, failure, try_except, bind at 1 2.
  unfold requests_get, raise_for_status.
  destruct (server (sent st) u) as [r|].
  - destruct ((400 <=? status_code r)%Z && (status_code r <? 600)%Z);
      cbn [negb]; [|reflexivity].
    unfold raise. cbn [is_request_exception]. unfold bind, log, emit. cbn.
    destruct (attempt <? max_attempts - 1)%Z; cbn; rewrite <- ?app_assoc; reflexivity.
  - cbn [is_request_exception]. unfold bind, log, emit. cbn.
    destruct (attempt <? max_attempts - 1)%Z; cbn; rewrite <- ?app_assoc; reflexivity.
Qed.

Lemma make_request_from_returns (n : nat) :
  forall attempt st,
  exists r st',
    make_request_from server n attempt u max_attempts st = (Ok r, st')
    /\ sent st <= sent st' <= sent st + n.
Proof.
  induction n as [|n IH]; intros attempt st.
  - exists None, st. split; [reflexivity|lia].
  - rewrite make_request_round. destruct (answered server u (sent st)).
    + eexists; eexists. split; [reflexivity|]. cbn [sent]. lia.
    + cbn zeta. destruct (attempt <? max_attempts - 1)%Z.
      * match goal with |- context [make_request_from _ _ _ _ _ ?s] =>
          destruct (IH (attempt + 1)%Z s) as (r & st' & E & L) end.
        exists r, st'. split; [exact E|]. cbn [sent] in L. lia.
      * eexists; eexists. split; [reflexivity|]. cbn [sent]. lia.
Qed.

(** X1.  [_make_request] never raises, whatever the server does, and sends at
    most [max_attempts] requests. *)
Theorem make_request_returns (st : state) :
  exists r st',
    _make_request server u max_attempts st = (Ok r, st')
    /\ sent st <= sent st' <= sent st + Z.to_nat max_attempts.
Proof. apply make_request_from_returns. Qed.

Lemma make_request_from_recovers (j : nat) :
  forall n attempt st r,
    (0 <= attempt)%Z ->
    (attempt + Z.of_nat j < max_attempts)%Z ->
    j < n ->
    (forall k, k < j -> answered server u (sent st + k) = false) ->
    answered server u (sent st + j) = true ->
    server (sent st + j) u = Some r ->
    exists st',
      make_request_from server n attempt u max_attempts st = (Ok (Some r), st')
      /\ sent st' = sent st + j + 1
      /\ sleeps (trace st') = sleeps (trace st) ++ backoff attempt j.
Proof.
  induction j as [|j IH]; intros n attempt st r Ha Hm Hn Hf Ht Hr;
    (destruct n as [|n]; [lia|]); rewrite make_request_round.
  - rewrite Nat.add_0_r in *. rewrite Ht, Hr. eexists. split; [reflexivity|].
    cbn [sent trace backoff seq map]. rewrite app_nil_r. split; [lia|reflexivity].
  - pose proof (Hf 0 ltac:(lia)) as H0. rewrite Nat.add_0_r in H0. rewrite H0.
    cbn zeta. replace (attempt <? max_attempts - 1)%Z with true
      by (symmetry; apply Z.ltb_lt; lia).
    match goal with |- context [make_request_from _ _ _ _ _ ?s] =>
      destruct (IH n (attempt + 1)%Z s r) as (st' & E & S1 & S2) end;
      cbn [sent trace]; try lia.
    + intros k Hk. replace (S (sent st) + k) with (sent st + S k) by lia.
      apply Hf. lia.
    + now replace (S (sent st) + j) with (sent st + S j) by lia.
    + now replace (S (sent st) + j) with (sent st + S j) by lia.
    + exists st'. split; [exact E|]. split; [cbn [sent] in S1; lia|].
      rewrite S2. cbn [trace]. rewrite sleeps_app. cbn [sleeps flat_map app].
      rewrite <- app_assoc. f_equal. unfold backoff. cbn [seq map app].
      rewrite Z.add_0_r. f_equal. rewrite <- seq_shift, map_map.
      apply map_ext. intros k. f_equal. lia.
Qed.

(** X2.  A transient failure is retried: when the first [j] requests fail and
    the next one is answered, with [j] below [max_attempts],
    [_make_request] returns that answer after [j + 1] requests, having slept
    1, 2, 4, ... seconds, once after each failure. *)
Theorem make_request_recovers (j : nat) (r : response B) (st : state) :
  (Z.of_nat j < max_attempts)%Z ->
  (forall k, k < j -> answered server u (sent st + k) = false) ->
  answered server u (sent st + j) = true ->
  server (sent st + j) u = Some r ->
  exists st',
    _make_request server u max_attempts st = (Ok (Some r), st')
    /\ sent st' = sent st + j + 1
    /\ sleeps (trace st') = sleeps (trace st) ++ backoff 0 j.
Proof.
  intros Hm Hf Ht Hr. apply make_request_from_recovers; try assumption; lia.
Qed.

Lemma make_request_from_gives_up (n : nat) :
  forall attempt st,
    (0 <= attempt)%Z ->
    (attempt + Z.of_nat (S n) = max_attempts)%Z ->
    (forall k, k <= n -> answered server u (sent st + k) = false) ->
    exists st',
      make_request_from server (S n) attempt u max_attempts st = (Ok None, st')
      /\ sent st' = sent st + S n
      /\ sleeps (trace st') = sleeps (trace st) ++ backoff attempt n.
Proof.
  induction n as [|n IH]; intros attempt st Ha Hm Hf; rewrite make_request_round;
    pose proof (Hf 0 ltac:(lia)) as H0; rewrite Nat.add_0_r in H0; rewrite H0;
    cbn zeta.
  - replace (attempt <? max_attempts - 1)%Z with false
      by (symmetry; apply Z.ltb_ge; lia).
    eexists. split; [reflexivity|]. cbn [sent trace]. split; [lia|].
    rewrite sleeps_app. cbn. now rewrite app_nil_r.
  - replace (attempt <? max_attempts - 1)%Z with true
      by (symmetry; apply Z.ltb_lt; lia).
    match goal with |- context [make_request_from _ _ _ _ _ ?s] =>
      destruct (IH (attempt + 1)%Z s) as (st' & E & S1 & S2) end;
      cbn [sent trace]; try lia.
    + intros k Hk. replace (S (sent st) + k) with (sent st + S k) by lia.
      apply Hf. lia.
    + exists st'. split; [exact E|]. split; [cbn [sent] in S1; lia|].
      rewrite S2. cbn [trace]. rewrite sleeps_app. cbn [sleeps flat_map app].
      rewrite <- app_assoc. f_equal. unfold backoff. cbn [seq map app].
      rewrite Z.add_0_r. f_equal. rewrite <- seq_shift, map_map.
      apply map_ext. intros k. f_equal. lia.
Qed.

(** X3.  When none of its requests is answered, [_make_request] gives up after
    exactly [max_attempts] requests and returns [None]; it sleeps between
    the attempts only, 1, 2, 4, ... seconds, so one time fewer than it
    tries. *)
Theorem make_request_gives_up (st : state) :
  (1 <= max_attempts)%Z ->
  (forall k, k < Z.to_nat max_attempts -> answered server u (sent st + k) = false) ->
  exists st',
    _make_request server u max_attempts st = (Ok None, st')
    /\ sent st' = sent st + Z.to_nat max_attempts
    /\ sleeps (trace st') = sleeps (trace st) ++ backoff 0 (Z.to_nat max_attempts - 1).
Proof.
  intros H1 Hf. unfold _make_request.
  destruct (Z.to_nat max_attempts) as [|n] eqn:E; [lia|].
  replace (S n - 1) with n by lia.
  apply make_request_from_gives_up; [lia|lia|]. intros k Hk. apply Hf. lia.
Qed.

End AnyServer.

(** The second request is answered. *)
Lemma make_request_recovers_sample :
  answered (fun k u => if (k =? 1)%nat then Some (mkResponse 200 None JNull) else None)
           (PostById "https://example.com" 5) 1 = true
  /\ exists st',
       _make_request
         (fun k u => if (k =? 1)%nat then Some (mkResponse 200 None JNull) else None)
         (PostById "https://example.com" 5) 3 init
       = (Ok (Some (mkResponse 200 None JNull)), st')
       /\ sent st' = 2
       /\ sleeps (trace st') = [1%Z].
Proof.
  split; [reflexivity|].
  apply (make_request_recovers
           (fun k u => if (k =? 1)%nat then Some (mkResponse 200 None JNull) else None)
           (PostById "https://example.com" 5) 3 1 (mkResponse 200 None JNull) init).
  - reflexivity.
  - intros k Hk. assert (k = 0) by lia. subst. reflexivity.
  - reflexivity.
  - reflexivity.
Defined.

(** A server that answers 503 to everything. *)
Lemma make_request_gives_up_sample :
  exists st',
    _make_request (fun k u => Some (mkResponse 503 None JNull))
                  (PostById "https://example.com" 5) 3 init
    = (Ok None, st')
    /\ sent st' = 3
    /\ sleeps (trace st') = [1; 2]%Z.
Proof.
  apply (make_request_gives_up (fun k u => Some (mkResponse 503 None JNull))
                               (PostById "https://example.com" 5) 3 init).
  - lia.
  - intros k Hk. reflexivity.
Defined.

End RetryFacts.

(** ** Retries and fallbacks of [resolve_slug_to_id] *)
Module ResolverFacts.
Import LinkExtractor RetrySpec RetryFacts.

Section AnyServer.
Variable server : nat -> wp_url -> option (response listing).
Variables (base_url slug : string).
Variable max_attempts : Z.

Lemma resolve_from_raises_name_error (ignore_non_posts : bool) (n : nat) :
  forall attempt st e st',
    resolve_from server n attempt base_url slug ignore_non_posts max_attempts st
    = (Raise e, st') ->
    e = NameError "url".
Proof.
  induction n as [|n IH]; intros attempt st e st'; cbn [resolve_from].
  - discriminate.
  - unfold try_except.
    destruct (lookups server base_url slug ignore_non_posts st) as [[v|e0] st1];
      [discriminate|].
    destruct (is_request_exception e0).
    + unfold bind at 1, log at 1, emit at 1.
      destruct (attempt <? max_attempts - 1)%Z.
      * unfold bind, log, sleep, emit. apply IH.
      * unfold bind, log, emit, ret. discriminate.
    + unfold raise. congruence.
Qed.

(** X4.  The only exception that leaves [resolve_slug_to_id] is the NameError of
    its handler: a failed request never does. *)
Theorem resolve_raises_name_error_only (ignore_non_posts : bool)
        (st st' : state) (e : exn) :
  resolve_slug_to_id server base_url slug ignore_non_posts max_attempts st
  = (Raise e, st') ->
  e = NameError "url".
Proof. apply resolve_from_raises_name_error. Qed.

(** The first request of an attempt, for the post. *)
Lemma lookup_posts (st : state) :
  lookup server Posts base_url slug st
  = if answered server (BySlug Posts base_url slug) (sent st)
    then match server (sent st) (BySlug Posts base_url slug) with
         | Some r => (Ok (body r), mkState (S (sent st)) (trace st))
         | None => (Raise ConnectionError, mkState (S (sent st)) (trace st))
         end
    else (Raise (failure server (BySlug Posts base_url slug) (sent st)),
          mkState (S (sent st)) (trace st)).
Proof.
  unfold lookup, bind, requests_get, raise_for_status, answered, failure.
  destruct (server (sent st) (BySlug Posts base_url slug)) as [r|]; [|reflexivity].
  destruct ((400 <=? status_code r)%Z && (status_code r <? 600)%Z); reflexivity.
Qed.

(** X5.  A post that has the slug is returned at once, whatever the flag and
    whatever pages or categories have the slug too. *)
Theorem resolve_prefers_post (ignore_non_posts : bool) (r : response listing)
        (i : Z) (s : option string) (rest : list item) (st : state) :
  (1 <= max_attempts)%Z ->
  server (sent st) (BySlug Posts base_url slug) = Some r ->
  passes r ->
  body r = LList (Obj (Some i) s :: rest) ->
  resolve_slug_to_id server base_url slug ignore_non_posts max_attempts st
  = (Ok (Some i), mkState (S (sent st)) (trace st)).
Proof.
  intros H1 H P E. unfold resolve_slug_to_id.
  destruct (Z.to_nat max_attempts) as [|n] eqn:N; [lia|].
  cbn [resolve_from]. unfold try_except, lookups. unfold bind at 1.
  rewrite lookup_posts. unfold answered. rewrite H. unfold passes in P.
  rewrite P. cbn [negb]. rewrite E. reflexivity.
Qed.

Lemma resolve_round_failed (ignore_non_posts : bool) (n : nat) (attempt : Z)
      (st : state) :
  answered server (BySlug Posts base_url slug) (sent st) = false ->
  resolve_from server (S n) attempt base_url slug ignore_non_posts max_attempts st
  = let e := failure server (BySlug Posts base_url slug) (sent st) in
    let failed := Log ERROR (SlugAttemptFailed slug (attempt + 1) max_attempts e) in
    if (attempt <? max_attempts - 1)%Z
    then resolve_from server n (attempt + 1) base_url slug ignore_non_posts
           max_attempts
           (mkState (S (sent st))
                    (trace st ++ [failed; Log INFO (RetryIn (2 ^ attempt));
                                  Sleep (2 ^ attempt)]))
    else (Ok None,
          mkState (S (sent st))
                  (trace st ++ [failed; Log ERROR (GaveUp max_attempts e)])).
Proof.
  intros H. cbn [resolve_from]. unfold try_except, lookups. unfold bind at 1.
  rewrite lookup_posts, H.
  assert (R : is_request_exception
                (failure server (BySlug Posts base_url slug) (sent st)) = true).
  { unfold failure. now destruct (server (sent st) _). }
  rewrite R. cbn zeta. unfold bind, log, sleep, emit. cbn [sent trace].
  destruct (attempt <? max_attempts - 1)%Z; cbn; rewrite <- ?app_assoc; reflexivity.
Qed.

Lemma resolve_from_gives_up (ignore_non_posts : bool) (n : nat) :
  forall attempt st,
    (0 <= attempt)%Z ->
    (attempt + Z.of_nat (S n) = max_attempts)%Z ->
    (forall k, k <= n ->
               answered server (BySlug Posts base_url slug) (sent st + k) = false) ->
    exists st',
      resolve_from server (S n) attempt base_url slug ignore_non_posts
                   max_attempts st = (Ok None, st')
      /\ sent st' = sent st + S n
      /\ sleeps (trace st') = sleeps (trace st) ++ backoff attempt n.
Proof.
  induction n as [|n IH]; intros attempt st Ha Hm Hf;
    pose proof (Hf 0 ltac:(lia)) as H0; rewrite Nat.add_0_r in H0;
    rewrite (resolve_round_failed _ _ _ _ H0); cbn zeta.
  - replace (attempt <? max_attempts - 1)%Z with false
      by (symmetry; apply Z.ltb_ge; lia).
    eexists. split; [reflexivity|]. cbn [sent trace]. split; [lia|].
    rewrite sleeps_app. cbn. now rewrite app_nil_r.
  - replace (attempt <? max_attempts - 1)%Z with true
      by (symmetry; apply Z.ltb_lt; lia).
    match goal with |- context [resolve_from _ _ _ _ _ _ _ ?s] =>
      destruct (IH (attempt + 1)%Z s) as (st' & E & S1 & S2) end;
      cbn [sent trace]; try lia.
    + intros k Hk. replace (S (sent st) + k) with (sent st + S k) by lia.
      apply Hf. lia.
    + exists st'. split; [exact E|]. split; [cbn [sent] in S1; lia|].
      rewrite S2. cbn [trace]. rewrite sleeps_app. cbn [sleeps flat_map app].
      rewrite <- app_assoc. f_equal. unfold backoff. cbn [seq map app].
      rewrite Z.add_0_r. f_equal. rewrite <- seq_shift, map_map.
      apply map_ext. intros k. f_equal. lia.
Qed.

(** X6.  When the request for the post fails at every attempt,
    [resolve_slug_to_id] returns [None] after [max_attempts] requests and
    the sleeps of 1, 2, 4, ... seconds between them: it does not raise. *)
Theorem resolve_gives_up (ignore_non_posts : bool) (st : state) :
  (1 <= max_attempts)%Z ->
  (forall k, k < Z.to_nat max_attempts ->
             answered server (BySlug Posts base_url slug) (sent st + k) = false) ->
  exists st',
    resolve_slug_to_id server base_url slug ignore_non_posts max_attempts st
    = (Ok None, st')
    /\ sent st' = sent st + Z.to_nat max_attempts
    /\ sleeps (trace st') = sleeps (trace st) ++ backoff 0 (Z.to_nat max_attempts - 1).
Proof.
  intros H1 Hf. unfold resolve_slug_to_id.
  destruct (Z.to_nat max_attempts) as [|n] eqn:E; [lia|].
  replace (S n - 1) with n by lia.
  apply resolve_from_gives_up; [lia|lia|]. intros k Hk. apply Hf. lia.
Qed.

(** X7.  With the flag cleared and no post for the slug, the pages are asked,
    then the categories; the first identifier found is returned, and
    nothing after three empty answers. *)
Theorem resolve_falls_back (r1 r2 : response listing) (st : state) :
  (1 <= max_attempts)%Z ->
  server (sent st) (BySlug Posts base_url slug) = Some r1 ->
  passes r1 ->
  listing_truthy (body r1) = false ->
  server (S (sent st)) (BySlug Pages base_url slug) = Some r2 ->
  passes r2 ->
  (forall i s rest,
      body r2 = LList (Obj (Some i) s :: rest) ->
      resolve_slug_to_id server base_url slug false max_attempts st
      = (Ok (Some i), mkState (sent st + 2) (trace st)))
  /\ (listing_truthy (body r2) = false ->
      forall r3,
        server (S (S (sent st))) (BySlug Categories base_url slug) = Some r3 ->
        passes r3 ->
        (forall i s rest,
            body r3 = LList (Obj (Some i) s :: rest) ->
            resolve_slug_to_id server base_url slug false max_attempts st
            = (Ok (Some i), mkState (sent st + 3) (trace st)))
        /\ (listing_truthy (body r3) = false ->
            resolve_slug_to_id server base_url slug false max_attempts st
            = (Ok None,
               mkState (sent st + 3) (trace st ++ [Log WARNING (SlugNoId slug)])))).
Proof.
  intros H1 S1 P1 T1 S2 P2. unfold resolve_slug_to_id.
  destruct (Z.to_nat max_attempts) as [|n] eqn:N; [lia|].
  replace (sent st + 2) with (S (S (sent st))) by lia.
  replace (sent st + 3) with (S (S (S (sent st)))) by lia.
  unfold passes in *.
  assert (First : forall k : listing -> M (option Z),
             bind (lookup server Posts base_url slug) k st
             = k (body r1) (mkState (S (sent st)) (trace st))).
  { intros k. unfold bind at 1. rewrite lookup_posts. unfold answered.
    now rewrite S1, P1. }
  assert (Second : forall k : listing -> M (option Z),
             bind (lookup server Pages base_url slug) k
                  (mkState (S (sent st)) (trace st))
             = k (body r2) (mkState (S (S (sent st))) (trace st))).
  { intros k. unfold bind at 1, lookup, bind, requests_get, raise_for_status.
    cbn [sent trace]. now rewrite S2, P2. }
  cbn [resolve_from]. unfold try_except, lookups. rewrite First, T1. cbn [negb].
  rewrite Second. split.
  - intros i s rest E. rewrite E. reflexivity.
  - intros T2 r3 S3 P3. rewrite T2.
    assert (Third : forall k : listing -> M (option Z),
               bind (lookup server Categories base_url slug) k
                    (mkState (S (S (sent st))) (trace st))
               = k (body r3) (mkState (S (S (S (sent st)))) (trace st))).
    { intros k. unfold bind at 1, lookup, bind, requests_get, raise_for_status.
      cbn [sent trace]. now rewrite S3, P3. }
    rewrite Third. split.
    + intros i s rest E. rewrite E. reflexivity.
    + intros T3. rewrite T3. reflexivity.
Qed.

End AnyServer.

(** X8.  With [ignore_non_posts] set, what the server has for pages and
    categories does not matter: two servers with the same posts resolve
    every slug alike. *)
Theorem resolve_ignores_pages_and_categories
        (server server' : nat -> wp_url -> option (response listing))
        (base_url slug : string) (max_attempts : Z) (st : state) :
  (forall k, server k (BySlug Posts base_url slug)
             = server' k (BySlug Posts base_url slug)) ->
  resolve_slug_to_id server base_url slug true max_attempts st
  = resolve_slug_to_id server' base_url slug true max_attempts st.
Proof.
  intros H. unfold resolve_slug_to_id.
  generalize (Z.to_nat max_attempts) as n, 0%Z as attempt. intros n. revert st.
  induction n as [|n IH]; intros st attempt; [reflexivity|].
  cbn [resolve_from]. unfold try_except.
  assert (L : lookups server base_url slug true st
              = lookups server' base_url slug true st).
  { unfold lookups, bind, lookup, bind, requests_get. now rewrite H. }
  rewrite L. destruct (lookups server' base_url slug true st) as [[v|e] st1];
    [reflexivity|].
  destruct (is_request_exception e); [|reflexivity].
  unfold bind, log, sleep, emit.
  destruct (attempt <? max_attempts - 1)%Z; [apply IH|reflexivity].
Qed.

(** The server of the page [contact] and a server without pages. *)
Lemma resolve_ignores_pages_and_categories_sample :
  resolve_slug_to_id Samples.page_only "https://example.com" "contact" true 3 init
  = resolve_slug_to_id
      (fun k u => match u with
                  | BySlug Posts _ _ => Some (mkResponse 200 None (LList []))
                  | _ => None
                  end)
      "https://example.com" "contact" true 3 init.
Proof.
  apply (resolve_ignores_pages_and_categories
           Samples.page_only
           (fun k u => match u with
                       | BySlug Posts _ _ => Some (mkResponse 200 None (LList []))
                       | _ => None
                       end)
           "https://example.com" "contact" 3 init).
  intros k. reflexivity.
Defined.

(** The posts that come without their [id]. *)
Lemma resolve_raises_name_error_only_sample :
  resolve_slug_to_id Samples.no_id "https://example.com" "about" false 3 init
  = (Raise (NameError "url"), mkState 1 [])
  /\ NameError "url" = NameError "url".
Proof.
  split; [reflexivity|].
  apply (resolve_raises_name_error_only Samples.no_id "https://example.com" "about" 3
           false init (mkState 1 []) (NameError "url")).
  reflexivity.
Defined.

(** A post found by its slug. *)
Lemma resolve_prefers_post_sample :
  resolve_slug_to_id Samples.zero_id "https://example.com" "zero" false 3 init
  = (Ok (Some 0%Z), mkState 1 []).
Proof.
  apply (resolve_prefers_post Samples.zero_id "https://example.com" "zero" 3 false
           (mkResponse 200 None (LList [Obj (Some 0%Z) (Some "zero")]))
           0 (Some "zero") [] init); try reflexivity. lia.
Defined.

(** A server that is down. *)
Lemma resolve_gives_up_sample :
  exists st',
    resolve_slug_to_id (fun _ _ => None) "https://example.com" "about" false 3 init
    = (Ok None, st')
    /\ sent st' = 3
    /\ sleeps (trace st') = [1; 2]%Z.
Proof.
  apply (resolve_gives_up (fun _ _ => None) "https://example.com" "about" 3 false init).
  - lia.
  - intros k Hk. reflexivity.
Defined.

(** The page [contact], found once the flag is cleared. *)
Lemma resolve_falls_back_sample :
  resolve_slug_to_id Samples.page_only "https://example.com" "contact" false 3 init
  = (Ok (Some 7%Z), mkState 2 []).
Proof.
  refine (proj1 (resolve_falls_back Samples.page_only "https://example.com" "contact" 3
                   (mkResponse 200 None (LList []))
                   (mkResponse 200 None (LList [Obj (Some 7%Z) (Some "contact")]))
                   init _ eq_refl eq_refl eq_refl eq_refl eq_refl)
                7%Z (Some "contact") [] eq_refl).
  lia.
Defined.

End ResolverFacts.

(** ** The article directory, on any server *)
Module DirectoryWalk.
Import ApiClient RetrySpec RetryFacts RequestFacts DirectorySpec DirectoryFacts.

Section AnyServer.
Variable server : nat -> wp_url -> option (response listing).
Variables (base_url : string) (per_page : Z).

Lemma more_pages_returns (remaining : nat) :
  forall page all_posts st,
  exists l st',
    more_pages server remaining page base_url per_page all_posts st = (Ok l, st').
Proof.
  induction remaining as [|n IH]; intros page all_posts st; cbn [more_pages].
  - eexists; eexists; reflexivity.
  - unfold bind at 1, log at 1, emit at 1. unfold bind at 1.
    match goal with |- context [_make_request server ?u 3 ?s] =>
      destruct (make_request_from_returns server u 3 3 0%Z s) as (r & st1 & E & _);
      change (make_request_from server 3 0 u 3 s)
        with (_make_request server u 3 s) in E end.
    rewrite E. destruct r as [r|]; [|eexists; eexists; reflexivity].
    destruct (listing_truthy (body r)); cbn [negb];
      [|eexists; eexists; reflexivity].
    destruct (entries_of (body r)); [apply IH|eexists; eexists; reflexivity].
Qed.

(** The walk ends with a list. *)
Lemma get_all_posts_total (st : state) :
  exists all_posts st',
    get_all_posts server base_url per_page st = (Ok all_posts, st').
Proof.
  unfold get_all_posts. unfold bind at 1, log at 1, emit at 1. unfold bind at 1.
  match goal with |- context [_make_request server ?u 3 ?s] =>
    destruct (make_request_from_returns server u 3 3 0%Z s) as (r & st1 & E & _);
    change (make_request_from server 3 0 u 3 s)
      with (_make_request server u 3 s) in E end.
  rewrite E. destruct r as [r|]; [|eexists; eexists; reflexivity].
  unfold try_except, bind, lift.
  destruct (total_pages_of (x_wp_totalpages r)); [|eexists; eexists; reflexivity].
  destruct (listing_truthy (body r)); cbn [negb]; [|eexists; eexists; reflexivity].
  destruct (entries_of (body r)) as [entries|e]; [|eexists; eexists; reflexivity].
  match goal with |- context [more_pages server ?n ?p ?b ?pp ?a ?s] =>
    destruct (more_pages_returns n p a s) as (l & st2 & M) end.
  rewrite M. eexists; eexists; reflexivity.
Qed.

(** X9.  [get_all_posts] never raises: on any server it returns a list. *)
Theorem get_all_posts_returns (st : state) :
  exists all_posts st',
    get_all_posts server base_url per_page st = (Ok all_posts, st').
Proof. exact (get_all_posts_total st). Qed.

(** X10.  A first page that cannot be fetched, that is empty, or whose header
    [X-WP-TotalPages] is not a number, gives the empty list: no later page
    is asked for. *)
Theorem get_all_posts_first_page_unusable (st : state) :
  ((forall k, k < 3 ->
              answered server (PostsPage base_url per_page 1) (sent st + k) = false) ->
   exists st',
     get_all_posts server base_url per_page st = (Ok [], st')
     /\ sent st' = sent st + 3)
  /\ (forall r,
         server (sent st) (PostsPage base_url per_page 1) = Some r ->
         passes r ->
         listing_truthy (body r) = false
         \/ (exists e, total_pages_of (x_wp_totalpages r) = Raise e) ->
         exists st',
           get_all_posts server base_url per_page st = (Ok [], st')
           /\ sent st' = sent st + 1).
Proof.
  split.
  - intros Hf. unfold get_all_posts.
    unfold bind at 1, log at 1, emit at 1. unfold bind at 1.
    match goal with |- context [_make_request server ?u 3 ?s] =>
      destruct (make_request_from_gives_up server u 3 2 0%Z s) as (st1 & E & S1 & _);
      [lia|reflexivity|intros k Hk; apply Hf; lia|];
      change (make_request_from server 3 0 u 3 s)
        with (_make_request server u 3 s) in E end.
    rewrite E. eexists. split; [reflexivity|]. cbn [sent] in S1. lia.
  - intros r H P C. unfold get_all_posts.
    unfold bind at 1, log at 1, emit at 1. unfold bind at 1.
    rewrite (make_request_answered _ _ r) by assumption.
    unfold try_except, bind, lift. cbn [sent trace].
    destruct C as [T|[e T]].
    + destruct (total_pages_of (x_wp_totalpages r));
        [rewrite T|]; eexists; (split; [reflexivity|cbn [sent]; lia]).
    + rewrite T. eexists. split; [reflexivity|cbn [sent]; lia].
Qed.

End AnyServer.




(** A first page without articles, and a server that is down. *)
Lemma get_all_posts_first_page_unusable_sample :
  (exists st',
      get_all_posts (fun _ _ => None) "https://example.com" 100 init = (Ok [], st')
      /\ sent st' = 3)
  /\ (exists st',
         get_all_posts (serving (Some "4") [LList []]) "https://example.com" 100 init
         = (Ok [], st')
         /\ sent st' = 1).
Proof.
  split.
  - apply (proj1 (get_all_posts_first_page_unusable
                    (fun _ _ => None) "https://example.com" 100 init)).
    intros k Hk. reflexivity.
  - apply (proj2 (get_all_posts_first_page_unusable
                    (serving (Some "4") [LList []]) "https://example.com" 100 init)
                 (mkResponse 200 (Some "4") (LList [])));
      [reflexivity|reflexivity|now left].
Defined.

End DirectoryWalk.

(** ** The content of one article *)
Module ContentFacts.
Import ApiClient RetrySpec RetryFacts RequestFacts.

Section AnyServer.
Variable server : nat -> wp_url -> option (response json).
Variables (base_url : string) (post_id : Z).

(** The fetch ends with a pair. *)
Lemma get_post_content_total (st : state) :
  exists content_and_acf st',
    get_post_content server base_url post_id st = (Ok content_and_acf, st').
Proof.
  unfold get_post_content. unfold bind at 1, log at 1, emit at 1. unfold bind at 1.
  match goal with |- context [_make_request server ?u 3 ?s] =>
    destruct (make_request_from_returns server u 3 3 0%Z s) as (r & st1 & E & _);
    change (make_request_from server 3 0 u 3 s)
      with (_make_request server u 3 s) in E end.
  rewrite E. destruct r as [r|]; [|eexists; eexists; reflexivity].
  unfold try_except, bind, lift.
  destruct (getitem (body r) "content") as [c|e].
  - destruct (getitem c "rendered") as [h|e]; [eexists; eexists; reflexivity|].
    destruct e; eexists; eexists; reflexivity.
  - destruct e; eexists; eexists; reflexivity.
Qed.

(** X12.  [get_post_content] never raises: on any server and any body it returns
    a pair. *)
Theorem get_post_content_returns (st : state) :
  exists content_and_acf st',
    get_post_content server base_url post_id st = (Ok content_and_acf, st').
Proof. exact (get_post_content_total st). Qed.

(** X13.  An article that cannot be fetched, or whose body has no
    [content.rendered], comes back as the empty content and the empty block
    of fields; a body with [content.rendered] and without [acf] comes back
    with the empty block. *)
Theorem get_post_content_degrades (st : state) :
  ((forall k, k < 3 ->
              answered server (PostById base_url post_id) (sent st + k) = false) ->
   fst (get_post_content server base_url post_id st) = Ok no_content)
  /\ (forall r,
         server (sent st) (PostById base_url post_id) = Some r ->
         passes r ->
         ((forall c h, getitem (body r) "content" = Ok c ->
                       getitem c "rendered" = Ok h -> False) ->
          fst (get_post_content server base_url post_id st) = Ok no_content)
         /\ (forall fields c h,
                body r = JDict fields ->
                dict_get "content" fields = Some c ->
                getitem c "rendered" = Ok h ->
                dict_get "acf" fields = None ->
                fst (get_post_content server base_url post_id st)
                = Ok (h, JDict []))).
Proof.
  split.
  - intros Hf. unfold get_post_content.
    unfold bind at 1, log at 1, emit at 1. unfold bind at 1.
    match goal with |- context [_make_request server ?u 3 ?s] =>
      destruct (make_request_from_gives_up server u 3 2 0%Z s) as (st1 & E & _);
      [lia|reflexivity|intros k Hk; apply Hf; lia|];
      change (make_request_from server 3 0 u 3 s)
        with (_make_request server u 3 s) in E end.
    now rewrite E.
  - intros r H P.
    assert (E : get_post_content server base_url post_id st
                = try_except
                    (rendered <- lift (getitem (body r) "content") ;;
                     content <- lift (getitem rendered "rendered") ;;
                     ret (content,
                          match body r with
                          | JDict fields =>
                              match dict_get "acf" fields with
                              | Some a => a
                              | None => JDict []
                              end
                          | _ => JDict []
                          end))
                    (fun e =>
                       match e with
                       | KeyError =>
                           log ERROR (PostContentKeyError post_id e) ;; ret no_content
                       | _ => log ERROR (PostContentError post_id e) ;; ret no_content
                       end)
                    (mkState (S (sent st))
                             (trace st ++ [Log INFO (ApiRequest
                                                       (PostById base_url post_id))]))).
    { unfold get_post_content. unfold bind at 1, log at 1, emit at 1. unfold bind at 1.
      now rewrite (make_request_answered _ _ r) by assumption. }
    rewrite E. unfold try_except, bind, lift, log, emit. split.
    + intros No. destruct (getitem (body r) "content") as [c|e] eqn:C.
      * destruct (getitem c "rendered") as [h|e] eqn:R;
          [exfalso; exact (No c h eq_refl R)|]. now destruct e.
      * now destruct e.
    + intros fields c h B C R A. rewrite B. cbn [getitem]. rewrite C, R, A.
      reflexivity.
Qed.

End AnyServer.

(** A body without [content], and a body without [acf]. *)
Lemma get_post_content_degrades_sample :
  fst (get_post_content
         (fun _ _ => Some (mkResponse 200 None (JDict [("id", JInt 5)])))
         "https://example.com" 5 init)
  = Ok no_content
  /\ fst (get_post_content Samples.plain_content "https://example.com" 5 init)
     = Ok (JStr "<p>text</p>", JDict []).
Proof.
  split.
  - apply (proj1 (proj2 (get_post_content_degrades
                           (fun _ _ => Some (mkResponse 200 None (JDict [("id", JInt 5)])))
                           "https://example.com" 5 init)
                        (mkResponse 200 None (JDict [("id", JInt 5)]))
                        eq_refl eq_refl)).
    intros c h C. discriminate.
  - apply (proj2 (proj2 (get_post_content_degrades
                           Samples.plain_content "https://example.com" 5 init)
                        (mkResponse 200 None
                           (JDict [("content", JDict [("rendered", JStr "<p>text</p>")])]))
                        eq_refl eq_refl)
                 [("content", JDict [("rendered", JStr "<p>text</p>")])]
                 (JDict [("rendered", JStr "<p>text</p>")])
                 (JStr "<p>text</p>"));
      reflexivity.
Defined.

End ContentFacts.

(** ** Anchor scraping, on any content *)
Module ScrapeFacts.
Import PyStr PyStrFacts LinkExtractor LinksSpec LinksFacts.

Lemma slug_of_path_no_slash (path slug : string) :
  slug_of_path path = Some slug -> contains_char "/" slug = false.
Proof.
  rewrite slug_of_path_coded. unfold slug_as_coded.
  destruct (has_file_extension path); [discriminate|].
  intros E. injection E as <-. apply last_segment_no_slash.
Qed.

Lemma internal_links_no_slash (netloc_valid : string -> bool) (links : list string)
      (slugs : list string) :
  internal_links_of netloc_valid links = Ok slugs ->
  Forall (fun s => contains_char "/" s = false) slugs.
Proof.
  rewrite internal_links_of_paths.
  destruct (map_result (UrlParse.path netloc_valid) links) as [paths|e];
    [|discriminate].
  intros E. injection E as <-. clear.
  induction paths as [|p paths IH]; cbn [flat_map]; [constructor|].
  apply Forall_app. split; [|exact IH].
  destruct (slug_of_path p) as [s|] eqn:E; cbn [kept]; constructor; [|constructor].
  now apply (slug_of_path_no_slash p).
Qed.

(** The scan ends with a list of slugs. *)
Lemma extract_internal_links_total
        (netloc_valid : string -> bool) (post_content : json) (base_url : string)
        (st : state) :
  exists slugs st',
    extract_internal_links netloc_valid post_content base_url st = (Ok slugs, st')
    /\ sent st' = sent st
    /\ Forall (fun s => contains_char "/" s = false) slugs
    /\ (st' = st \/ slugs = []).
Proof.
  unfold extract_internal_links, try_except, lift.
  destruct (internal_links netloc_valid post_content base_url) as [slugs|e] eqn:E.
  - exists slugs, st. repeat split; [|now left].
    destruct post_content; try discriminate. now apply internal_links_no_slash in E.
  - eexists; eexists. split; [reflexivity|]. cbn [sent]. repeat split; auto.
Qed.

(** X14.  [extract_internal_links] never raises, on content of any type; no slug
    it returns holds a slash; it sends no request; and when it has caught
    an error, its result is empty. *)
Theorem extract_internal_links_safe
        (netloc_valid : string -> bool) (post_content : json) (base_url : string)
        (st : state) :
  exists slugs st',
    extract_internal_links netloc_valid post_content base_url st = (Ok slugs, st')
    /\ sent st' = sent st
    /\ Forall (fun s => contains_char "/" s = false) slugs
    /\ (st' = st \/ slugs = []).
Proof. exact (extract_internal_links_total netloc_valid post_content base_url st). Qed.

Lemma rstrip_by_snoc (p : ascii -> bool) (d : ascii) (s : string) :
  p d = true ->
  rstrip_by p (String.append s (String d EmptyString)) = rstrip_by p s.
Proof.
  intros H. induction s as [|c r IH]; cbn [String.append rstrip_by].
  - now rewrite H.
  - now rewrite IH.
Qed.

(** X15.  A slash at the end of [base_url] changes nothing. *)
Theorem extract_internal_links_base_slash
        (netloc_valid : string -> bool) (post_content : json) (base_url : string)
        (st : state) :
  extract_internal_links netloc_valid post_content (String.append base_url "/") st
  = extract_internal_links netloc_valid post_content base_url st.
Proof.
  unfold extract_internal_links, internal_links, rstrip_char.
  now rewrite rstrip_by_snoc.
Qed.

Lemma lower_is_lt (c : ascii) : Regex.eqb_ci "<" c = true -> c = "<"%char.
Proof. ascii_cases c; vm_compute; congruence. Qed.

Lemma match_anchor_needs_lt (escaped_base_url : string) (c : ascii) (r : string) :
  Ascii.eqb c "<" = false -> Regex.match_anchor escaped_base_url (String c r) = None.
Proof.
  intros H. unfold Regex.match_anchor, Regex.next, Regex.lit at 1.
  cbn [String.append Regex.skip_ci].
  destruct (Regex.eqb_ci "<" c) eqn:E; [|reflexivity].
  apply lower_is_lt in E. subst c. discriminate.
Qed.

Lemma findall_plain (escaped_base_url : string) (s : string) :
  contains_char "<" s = false ->
  forall skip, Regex.findall_from skip escaped_base_url s = [].
Proof.
  induction s as [|c r IH]; intros H skip; [reflexivity|].
  cbn [contains_char] in H. apply orb_false_iff in H as [Hc Hr].
  cbn [Regex.findall_from]. destruct skip; [|now apply IH].
  rewrite match_anchor_needs_lt by assumption. now apply IH.
Qed.

(** X16.  Content without the character [<] has no link, whatever the base. *)
Theorem extract_internal_links_plain_text
        (netloc_valid : string -> bool) (html base_url : string) (st : state) :
  contains_char "<" html = false ->
  extract_internal_links netloc_valid (JStr html) base_url st = (Ok [], st).
Proof.
  intros H. unfold extract_internal_links, try_except, lift, internal_links,
              Regex.findall.
  now rewrite findall_plain.
Qed.

(** A paragraph of text. *)
Lemma extract_internal_links_plain_text_sample :
  extract_internal_links any_netloc
    (JStr "see https://example.com/about for more") "https://example.com" init
  = (Ok [], init).
Proof.
  apply (extract_internal_links_plain_text any_netloc
           "see https://example.com/about for more" "https://example.com" init).
  reflexivity.
Defined.

End ScrapeFacts.

(** ** Structured-field extraction, on any block *)
Module AcfSafety.
Import PyStr PyStrFacts LinkExtractor AcfSpec AcfFacts DataProcessor.

Lemma digit_not_space (c : ascii) : isdigit_char c = true -> isspace_char c = false.
Proof. ascii_cases c; vm_compute; congruence. Qed.

Lemma digit_not_sign (c : ascii) :
  isdigit_char c = true -> Ascii.eqb c "+" = false /\ Ascii.eqb c "-" = false.
Proof. ascii_cases c; vm_compute; intuition congruence. Qed.

Lemma digit_value_nonneg (c : ascii) : isdecimal_char c = true -> (0 <= digit_value c)%Z.
Proof. ascii_cases c; vm_compute; congruence. Qed.

Lemma digits_value_nonneg (s : string) :
  forall acc b z, (0 <= acc)%Z -> digits_value acc b s = Some z -> (0 <= z)%Z.
Proof.
  induction s as [|c r IH]; intros acc b z Ha; cbn [digits_value].
  - destruct b; [|discriminate]. intros E. injection E as <-. exact Ha.
  - destruct (isdecimal_char c) eqn:D.
    + apply IH. pose proof (digit_value_nonneg c D). lia.
    + destruct (Ascii.eqb c "_" && b); [now apply IH|discriminate].
Qed.

Lemma all_digit_no_space (s : string) :
  all_chars isdigit_char s = true ->
  all_chars (fun c => negb (isspace_char c)) s = true.
Proof.
  induction s as [|c r IH]; cbn [all_chars]; [reflexivity|]. intros H.
  apply andb_true_iff in H as [Hc Hr]. now rewrite (digit_not_space _ Hc), IH.
Qed.

(** What [int] reads from a string that [str.isdigit] accepts is not
    negative. *)
Lemma int_isdigit_nonneg (s : string) (z : Z) :
  isdigit s = true -> int s = Some z -> (0 <= z)%Z.
Proof.
  unfold isdigit, int, strip. intros H. apply andb_true_iff in H as [Hn Ha].
  rewrite (strip_by_none _ _ (all_digit_no_space _ Ha)).
  destruct s as [|c r]; [discriminate|].
  assert (Hc : isdigit_char c = true)
    by (cbn [all_chars] in Ha; now apply andb_true_iff in Ha).
  destruct (digit_not_sign _ Hc) as [-> ->].
  apply digits_value_nonneg. lia.
Qed.

Lemma strings_nonneg (l : list string) (ids : list Z) :
  map_result int_of_str (filter isdigit l) = Ok ids -> Forall (fun z => (0 <= z)%Z) ids.
Proof.
  revert ids. induction l as [|s l IH]; intros ids; cbn [filter map_result].
  - intros E. injection E as <-. constructor.
  - destruct (isdigit s) eqn:D; [|apply IH]. cbn [map_result].
    unfold int_of_str at 1. destruct (int s) as [z|] eqn:I; [|discriminate].
    destruct (map_result int_of_str (filter isdigit l)) as [zs|e]; [|discriminate].
    intros E. injection E as <-. constructor; [|now apply IH].
    now apply (int_isdigit_nonneg s).
Qed.

Lemma items_nonneg (l : list json) (ids : list Z) :
  map_result int_of (filter is_digit_item l) = Ok ids -> Forall (fun z => (0 <= z)%Z) ids.
Proof.
  revert ids. induction l as [|x l IH]; intros ids; cbn [filter map_result].
  - intros E. injection E as <-. constructor.
  - destruct (is_digit_item x) eqn:D; [|apply IH]. cbn [map_result].
    destruct (int_of x) as [z|] eqn:I; [|discriminate].
    destruct (map_result int_of (filter is_digit_item l)) as [zs|e]; [|discriminate].
    intros E. injection E as <-. constructor; [|now apply IH].
    destruct x as [|b|n|s|l'|fs]; try discriminate.
    + destruct b; discriminate.
    + cbn [int_of] in I. injection I as <-. rewrite is_digit_item_int in D.
      now apply Z.leb_le.
    + cbn [int_of] in I. unfold int_of_str in I.
      destruct (int s) as [z'|] eqn:J; [|discriminate]. injection I as <-.
      now apply (int_isdigit_nonneg s).
Qed.

Lemma related_posts_nonneg (acf_data : json) (acf_field_name : string)
      (ids : list Z) :
  related_posts acf_data acf_field_name = Ok ids ->
  Forall (fun z => (0 <= z)%Z) ids.
Proof.
  unfold related_posts. destruct acf_data as [| | | | |fields]; try discriminate.
  destruct (dict_get acf_field_name fields) as [[|b|z|s|l|fs]|];
    try (intros E; injection E as <-; constructor).
  - apply strings_nonneg.
  - apply items_nonneg.
Qed.

(** The reading of the field ends with a list of identifiers. *)
Lemma extract_acf_links_total (acf_data : json) (acf_field_name : string)
        (st : state) :
  exists ids st',
    extract_acf_links acf_data acf_field_name st = (Ok ids, st')
    /\ sent st' = sent st
    /\ Forall (fun z => (0 <= z)%Z) ids.
Proof.
  unfold extract_acf_links, try_except, lift.
  destruct (related_posts acf_data acf_field_name) as [ids|e] eqn:E.
  - exists ids, st. repeat split. now apply related_posts_nonneg in E.
  - assert (C : e = AttributeError \/ e = TypeError \/ e = ValueError).
    { unfold related_posts in E.
      destruct acf_data as [| | | | |fields]; try (injection E as <-; auto).
      destruct (dict_get acf_field_name fields) as [[|b|z|s|l|fs]|];
        try discriminate.
      - right; right. revert E. generalize (filter isdigit
          (map strip (filter (fun x => isdigit (strip x)) (split "," s)))).
        intros l. revert e. induction l as [|x l IH]; intros e; cbn [map_result];
          [discriminate|].
        unfold int_of_str at 1. destruct (int x); [|congruence].
        destruct (map_result int_of_str l); [discriminate|].
        intros E. injection E as <-. now apply IH.
      - revert E. generalize (filter is_digit_item l) as l'. intros l'. revert e.
        induction l' as [|x l' IH]; intros e; cbn [map_result]; [discriminate|].
        destruct (int_of x) as [z|e0] eqn:I.
        + destruct (map_result int_of l'); [discriminate|].
          intros E. injection E as <-. now apply IH.
        + intros E. injection E as <-.
          destruct x; cbn [int_of] in I; try discriminate;
            try (injection I as <-; auto).
          unfold int_of_str in I. destruct (int s); [discriminate|].
          injection I as <-. auto. }
    destruct C as [->|[->| ->]]; eexists; eexists;
      (split; [reflexivity|]); cbn [sent]; split; auto.
Qed.

(** X17.  [extract_acf_links] never raises, on a block of any type and a field of
    any shape; every identifier it returns is a non-negative integer; it
    sends no request. *)
Theorem extract_acf_links_safe (acf_data : json) (acf_field_name : string)
        (st : state) :
  exists ids st',
    extract_acf_links acf_data acf_field_name st = (Ok ids, st')
    /\ sent st' = sent st
    /\ Forall (fun z => (0 <= z)%Z) ids.
Proof. exact (extract_acf_links_total acf_data acf_field_name st). Qed.

End AcfSafety.

(** ** The comma-separated form of a list of identifiers *)
Module JoinedFacts.
Import PyStr PyStrFacts LinkExtractor AcfSpec DataProcessor.


















End JoinedFacts.

(** ** The incoming-link map as the transpose of the outgoing-link map *)
Module GraphFacts.
Import PyDict PyDictFacts DataProcessor ReportSpec GraphSpec.

Lemma get_set {V} (k k' : Z) (v : V) (d : t V) :
  get k (set k' v d) = if (k =? k')%Z then Some v else get k d.
Proof.
  induction d as [|[k0 v0] d IH]; cbn [set get]; [reflexivity|].
  destruct (k' =? k0)%Z eqn:E; cbn [get].
  - apply Z.eqb_eq in E. subst k0. now destruct (k =? k')%Z.
  - destruct (k =? k0)%Z eqn:F; [|exact IH].
    destruct (k =? k')%Z eqn:G; [|reflexivity].
    apply Z.eqb_eq in F, G. subst. now rewrite Z.eqb_refl in E.
Qed.

Lemma get_append {A} (t k : Z) (x : A) (d : PyDict.t (list A)) :
  get t (append k x d)
  = if (t =? k)%Z then option_map (fun l => l ++ [x]) (get t d) else get t d.
Proof.
  induction d as [|[k0 l] d IH]; cbn [append get]; [now destruct (t =? k)%Z|].
  destruct (k =? k0)%Z eqn:E; cbn [get].
  - apply Z.eqb_eq in E. subst k0. now destruct (t =? k)%Z.
  - destruct (t =? k0)%Z eqn:F; [|exact IH].
    destruct (t =? k)%Z eqn:G; [|reflexivity].
    apply Z.eqb_eq in F, G. subst. now rewrite Z.eqb_refl in E.
Qed.

Lemma keys_append {A} (k : Z) (x : A) (d : PyDict.t (list A)) :
  map fst (append k x d) = map fst d.
Proof.
  induction d as [|[k0 l] d IH]; cbn [append map fst]; [reflexivity|].
  destruct (k =? k0)%Z; cbn [map fst]; [reflexivity|now rewrite IH].
Qed.

Lemma get_none_keys {V} (k : Z) (d : t V) : get k d = None -> ~ In k (map fst d).
Proof.
  induction d as [|[k0 v0] d IH]; cbn [get map fst]; [tauto|].
  destruct (k =? k0)%Z eqn:E; [discriminate|]. intros H [F|F].
  - subst. now rewrite Z.eqb_refl in E.
  - now apply IH.
Qed.

Lemma keys_set {V} (k : Z) (v : V) (d : t V) :
  NoDup (map fst d) -> NoDup (map fst (set k v d)).
Proof.
  induction d as [|[k0 v0] d IH]; cbn [set map fst]; intros N.
  - repeat constructor. tauto.
  - inversion N as [|? ? Hn N']; subst.
    destruct (k =? k0)%Z eqn:E; cbn [map fst].
    + apply Z.eqb_eq in E. subst. now constructor.
    + constructor; [|now apply IH]. intros H. apply Hn.
      clear IH N N' Hn. induction d as [|[k1 v1] d IH]; cbn [set map fst] in *.
      * destruct H as [H|[]]. subst. now rewrite Z.eqb_refl in E.
      * destruct (k =? k1)%Z eqn:F; cbn [map fst] in H.
        -- apply Z.eqb_eq in F. subst k1. exact H.
        -- destruct H as [H|H]; [now left|right; now apply IH].
Qed.

(** The dict of empty sequences, one key per article. *)
Lemma initial_dict (all_posts : list post) :
  forall d : PyDict.t (list Z),
    NoDup (map fst d) ->
    let d' := fold_left (fun d p => set (p_id p) [] d) all_posts d in
    NoDup (map fst d')
    /\ forall t, get t d' = if known all_posts t then Some [] else get t d.
Proof.
  induction all_posts as [|p ps IH]; intros d N; cbn [fold_left].
  - split; [exact N|reflexivity].
  - destruct (IH (set (p_id p) [] d) (keys_set _ _ _ N)) as [N' G].
    split; [exact N'|]. intros t. rewrite G, get_set. unfold known.
    cbn [map existsb]. fold (known ps t).
    destruct (known ps t); [now rewrite orb_true_r|]. now rewrite orb_false_r.
Qed.

Lemma sources_of_app (t : Z) (a b : list (Z * Z)) :
  sources_of t (a ++ b) = sources_of t a ++ sources_of t b.
Proof. unfold sources_of. now rewrite filter_app, map_app. Qed.

Lemma sources_of_cons (t s x : Z) (ls : list (Z * Z)) :
  sources_of t ((s, x) :: ls)
  = (if (x =? t)%Z then [s] else []) ++ sources_of t ls.
Proof. unfold sources_of. cbn [filter snd]. now destruct (x =? t)%Z. Qed.

Lemma option_map_app_nil {A} (o : option (list A)) :
  option_map (fun l => l ++ []) o = o.
Proof. destruct o; cbn; [now rewrite app_nil_r|reflexivity]. Qed.

Lemma option_map_app {A} (a b : list A) (o : option (list A)) :
  option_map (fun l => l ++ b) (option_map (fun l => l ++ a) o)
  = option_map (fun l => l ++ a ++ b) o.
Proof. destruct o; cbn; [now rewrite app_assoc|reflexivity]. Qed.

(** The links of one source. *)
Lemma add_incoming_links (post_id : Z) (targets : list Z) :
  forall (d : PyDict.t (list Z)) (st : state),
  exists d',
    for_each (add_incoming post_id) targets d st
    = (Ok d',
       mkState (sent st)
               (trace st ++ map (fun t => Log WARNING (UnknownTarget t))
                                (filter (fun t => negb (mem t d)) targets)))
    /\ map fst d' = map fst d
    /\ (forall t, get t d'
                  = option_map
                      (fun l => l ++ sources_of t (map (pair post_id) targets))
                      (get t d))
    /\ total_links d' = total_links d + List.length (filter (fun t => mem t d) targets).
Proof.
  induction targets as [|x targets IH]; intros d st; cbn [for_each].
  - exists d. cbn [filter map List.length]. rewrite app_nil_r.
    repeat split; [now destruct st| |lia].
    intros t. unfold sources_of. cbn. now rewrite option_map_app_nil.
  - unfold bind at 1, add_incoming at 1. cbn [filter map].
    destruct (mem x d) eqn:M; cbn [negb].
    + unfold ret at 1.
      destruct (IH (append x post_id d) st) as (d' & R & K & G & T).
      exists d'. split; [|split; [|split]].
      * rewrite R.
        now rewrite (filter_ext (fun t => negb (mem t (append x post_id d)))
                                (fun t => negb (mem t d)))
          by (intros t; now rewrite mem_append).
      * now rewrite K, keys_append.
      * intros t. rewrite G, get_append, sources_of_cons, (Z.eqb_sym x t).
        destruct (t =? x)%Z; cbn [app].
        -- now rewrite option_map_app.
        -- reflexivity.
      * rewrite T, (total_append _ _ _ M). cbn [List.length].
        rewrite (filter_ext (fun t => mem t (append x post_id d)) (fun t => mem t d))
          by (intros t; apply mem_append). lia.
    + unfold bind at 1, log at 1, emit at 1, ret at 1.
      match goal with |- context [for_each _ _ _ ?s] =>
        destruct (IH d s) as (d' & R & K & G & T) end.
      exists d'. split; [|split; [|split]].
      * rewrite R. cbn [sent trace]. now rewrite <- app_assoc.
      * exact K.
      * intros t. rewrite G, sources_of_cons.
        destruct (x =? t)%Z eqn:E; [|reflexivity].
        apply Z.eqb_eq in E. subst t. unfold mem in M.
        now destruct (get x d).
      * exact T.
Qed.

Lemma mem_of_get {V} (k : Z) (d d' : t V) (f : Z -> V -> V) :
  (forall t, get t d' = option_map (f t) (get t d)) -> mem k d' = mem k d.
Proof. intros G. unfold mem. rewrite G. now destruct (get k d). Qed.

(** The links of all the sources. *)
Lemma add_all_links (links_per_post : PyDict.t (list Z)) :
  forall (d : PyDict.t (list Z)) (st : state),
  exists d',
    for_each (fun '(post_id, outgoing_links) =>
                for_each (add_incoming post_id) outgoing_links)
             links_per_post d st
    = (Ok d',
       mkState (sent st)
               (trace st ++ map (fun l => Log WARNING (UnknownTarget (snd l)))
                                (filter (fun l => negb (mem (snd l) d))
                                        (links links_per_post))))
    /\ map fst d' = map fst d
    /\ (forall t, get t d'
                  = option_map (fun l => l ++ sources_of t (links links_per_post))
                               (get t d))
    /\ total_links d'
       = total_links d
         + List.length (filter (fun l => mem (snd l) d) (links links_per_post)).
Proof.
  induction links_per_post as [|[src targets] L IH]; intros d st; cbn [for_each].
  - exists d. cbn [links flat_map filter map List.length]. rewrite app_nil_r.
    repeat split; [now destruct st| |lia].
    intros t. unfold sources_of. cbn. now rewrite option_map_app_nil.
  - destruct (add_incoming_links src targets d st) as (d1 & R1 & K1 & G1 & T1).
    unfold bind at 1. rewrite R1.
    match goal with |- context [for_each _ L d1 ?s] =>
      destruct (IH d1 s) as (d' & R & K & G & T) end.
    assert (M : forall t, mem t d1 = mem t d)
      by (intros t;
          exact (mem_of_get t d d1
                   (fun t l => l ++ sources_of t (map (pair src) targets)) G1)).
    exists d'. cbn [links flat_map fst snd]. fold (links L).
    split; [|split; [|split]].
    + rewrite R. cbn [sent trace]. rewrite <- app_assoc, filter_app, map_app.
      rewrite (filter_ext (fun l : Z * Z => negb (mem (snd l) d1))
                          (fun l => negb (mem (snd l) d)))
        by (intros l; now rewrite M).
      assert (E : filter (fun l : Z * Z => negb (mem (snd l) d)) (map (pair src) targets)
                  = map (pair src) (filter (fun t => negb (mem t d)) targets)).
      { clear. induction targets as [|x ts IH]; [reflexivity|].
        cbn [map filter snd]. destruct (negb (mem x d)); cbn [map]; now rewrite IH. }
      rewrite E, map_map. reflexivity.
    + now rewrite K.
    + intros t. rewrite G, G1, option_map_app, sources_of_app. reflexivity.
    + rewrite T, T1, filter_app, length_app.
      rewrite (filter_ext (fun l => mem (snd l) d1) (fun l => mem (snd l) d))
        by (intros l; apply M).
      assert (E : List.length (filter (fun t => mem t d) targets)
                  = List.length (filter (fun l : Z * Z => mem (snd l) d)
                                        (map (pair src) targets))).
      { clear. induction targets as [|x ts IH]; [reflexivity|].
        cbn [map filter snd]. destruct (mem x d); cbn [List.length]; now rewrite IH. }
      lia.
Qed.

Lemma total_links_links (links_per_post : PyDict.t (list Z)) :
  total_links links_per_post = List.length (links links_per_post).
Proof.
  induction links_per_post as [|[s ts] L IH]; [reflexivity|].
  rewrite total_cons. cbn [links flat_map fst snd]. fold (links L).
  now rewrite length_app, length_map, IH.
Qed.

(** [calculate_incoming_links], in full. *)
Lemma incoming_characterised (all_posts : list post)
      (links_per_post : PyDict.t (list Z)) (st : state) :
  exists incoming_links,
    calculate_incoming_links all_posts links_per_post st
    = (Ok incoming_links,
       mkState (sent st)
               (trace st ++ map (fun l => Log WARNING (UnknownTarget (snd l)))
                                (dangling all_posts (links links_per_post))))
    /\ NoDup (map fst incoming_links)
    /\ (forall t, get t incoming_links
                  = if known all_posts t
                    then Some (sources_of t (links links_per_post))
                    else None)
    /\ total_links incoming_links
       = List.length (filter (fun l => known all_posts (snd l)) (links links_per_post)).
Proof.
  unfold calculate_incoming_links.
  destruct (initial_dict all_posts [] (NoDup_nil _)) as [N G0].
  destruct (AggregateFacts.initial_incoming all_posts [] eq_refl) as [T0 _].
  cbn zeta in *.
  set (d0 := fold_left (fun d p => set (p_id p) [] d) all_posts []) in *.
  assert (M0 : forall t, mem t d0 = known all_posts t).
  { intros t. unfold mem. rewrite G0. now destruct (known all_posts t). }
  destruct (add_all_links links_per_post d0 st) as (d' & R & K & G & T).
  exists d'. split; [|split; [|split]].
  - rewrite R. unfold dangling.
    now rewrite (filter_ext (fun l : Z * Z => negb (mem (snd l) d0))
                            (fun l => negb (known all_posts (snd l))))
      by (intros l; now rewrite M0).
  - now rewrite K.
  - intros t. rewrite G, G0. now destruct (known all_posts t).
  - rewrite T, T0. cbn [Nat.add]. f_equal. apply filter_ext. intros l. apply M0.
Qed.

(** X19.  [calculate_incoming_links] never raises, whatever the link map holds.
    Its result has one key per distinct article identifier and no other
    key; the sequence under an article lists the sources of the links to
    it, one entry per link, in the order of the traversal. *)
Theorem incoming_is_transpose (all_posts : list post)
        (links_per_post : PyDict.t (list Z)) (st : state) :
  exists incoming_links st',
    calculate_incoming_links all_posts links_per_post st = (Ok incoming_links, st')
    /\ NoDup (map fst incoming_links)
    /\ forall t, get t incoming_links
                 = if known all_posts t
                   then Some (sources_of t (links links_per_post))
                   else None.
Proof.
  destruct (incoming_characterised all_posts links_per_post st)
    as (inc & R & N & G & _).
  eexists; eexists. split; [exact R|]. split; assumption.
Qed.

(** X20.  Each link to an identifier that is no article is skipped with one
    warning, in the order of the traversal, and nothing else is logged. *)
Theorem incoming_warns_of_dangling (all_posts : list post)
        (links_per_post : PyDict.t (list Z)) (st : state) :
  snd (calculate_incoming_links all_posts links_per_post st)
  = mkState (sent st)
            (trace st ++ map (fun l => Log WARNING (UnknownTarget (snd l)))
                             (dangling all_posts (links links_per_post))).
Proof.
  destruct (incoming_characterised all_posts links_per_post st)
    as (inc & R & _). now rewrite R.
Qed.

(** X21.  The incoming sequences hold one entry per link whose target is an
    article: links to unknown targets are not counted. *)
Theorem incoming_counts_known_links (all_posts : list post)
        (links_per_post : PyDict.t (list Z)) (st : state) :
  exists incoming_links,
    fst (calculate_incoming_links all_posts links_per_post st) = Ok incoming_links
    /\ total_links incoming_links + List.length (dangling all_posts (links links_per_post))
       = total_links links_per_post.
Proof.
  destruct (incoming_characterised all_posts links_per_post st)
    as (inc & R & _ & _ & T).
  exists inc. rewrite R. split; [reflexivity|]. rewrite T. unfold dangling.
  rewrite total_links_links. clear.
  induction (links links_per_post) as [|l ls IH]; [reflexivity|].
  cbn [filter]. destruct (known all_posts (snd l)); cbn [negb List.length]; lia.
Qed.

End GraphFacts.

(** ** The rows of the report *)
Module RowFacts.
Import PyDict DataProcessor ReportSpec GraphSpec GraphFacts.

Lemma take_In {A} (indexer : list nat) (rows : list A) (r : A) :
  In r (take indexer rows) -> In r rows.
Proof.
  unfold take. rewrite in_flat_map. intros (i & _ & H).
  destruct (nth_error rows i) as [x|] eqn:E; [|destruct H].
  destruct H as [<-|[]]. now apply nth_error_In in E.
Qed.

Lemma known_In (all_posts : list post) (p : post) :
  In p all_posts -> known all_posts (p_id p) = true.
Proof.
  intros H. unfold known. apply existsb_exists. exists (p_id p).
  split; [now apply in_map|apply Z.eqb_refl].
Qed.

(** The rows that [build_dataframe] returns are rows of articles. *)
Lemma report_rows_of_articles (argsort : list Z -> list nat) (all_posts : list post)
      (links_per_post incoming : PyDict.t (list Z)) :
  all_posts <> [] ->
  exists df,
    build_dataframe argsort all_posts links_per_post incoming = Ok df
    /\ forall r, In r df ->
                 exists p, In p all_posts
                           /\ r = row_of links_per_post incoming p.
Proof.
  intros H. unfold build_dataframe.
  destruct all_posts as [|p ps]; [contradiction|].
  set (data := map (row_of links_per_post incoming) (p :: ps)).
  assert (D : forall r, In r (sort_values_by_incoming_count argsort data) ->
                        exists q, In q (p :: ps)
                                  /\ r = row_of links_per_post incoming q).
  { intros r I. apply take_In in I. apply in_map_iff in I.
    destruct I as (q & <- & I). now exists q. }
  exists (sort_values_by_incoming_count argsort data). split; [|exact D].
  subst data. reflexivity.
Qed.

(** X22.  [calculate_incoming_links] and then [build_dataframe], on a site with
    an article: whatever order the sort gives, every row of the report is
    the row of an article, with its identifier and slug; its outgoing count
    is the length of the sequence under the article in the outgoing-link
    map, its incoming count is the number of links of the map whose target
    is the article, and its incoming text is their sources, joined. *)
Theorem report_counts_links (argsort : list Z -> list nat) (all_posts : list post)
        (links_per_post : PyDict.t (list Z)) (st : state) :
  all_posts <> [] ->
  exists incoming st' df,
    calculate_incoming_links all_posts links_per_post st = (Ok incoming, st')
    /\ build_dataframe argsort all_posts links_per_post incoming = Ok df
    /\ Forall (fun r =>
                 exists p,
                   In p all_posts
                   /\ post_id r = p_id p
                   /\ post_slug r = p_slug p
                   /\ outgoing_count r
                      = Z.of_nat (List.length
                                    (match get (p_id p) links_per_post with
                                     | Some l => l
                                     | None => []
                                     end))
                   /\ incoming_count r
                      = Z.of_nat (List.length
                                    (sources_of (p_id p) (links links_per_post)))
                   /\ incoming_links r
                      = joined (sources_of (p_id p) (links links_per_post)))
              df.
Proof.
  intros H.
  destruct (incoming_characterised all_posts links_per_post st)
    as (inc & R & _ & G & _).
  destruct (report_rows_of_articles argsort all_posts links_per_post inc H)
    as (df & B & D).
  exists inc. eexists. exists df. split; [exact R|]. split; [exact B|].
  apply Forall_forall. intros r I. destruct (D r I) as (p & P & ->).
  exists p. unfold row_of. rewrite G, (known_In _ _ P). cbn.
  repeat split; assumption || reflexivity.
Qed.

(** The articles and the link map of the module. *)
Lemma report_counts_links_sample :
  exists incoming st' df,
    calculate_incoming_links ALL_POSTS LINKS_PER_POST init = (Ok incoming, st')
    /\ build_dataframe (fun items => seq 0 (List.length items))
                       ALL_POSTS LINKS_PER_POST incoming = Ok df
    /\ Forall (fun r =>
                 exists p,
                   In p ALL_POSTS
                   /\ post_id r = p_id p
                   /\ post_slug r = p_slug p
                   /\ outgoing_count r
                      = Z.of_nat (List.length
                                    (match get (p_id p) LINKS_PER_POST with
                                     | Some l => l
                                     | None => []
                                     end))
                   /\ incoming_count r
                      = Z.of_nat (List.length
                                    (sources_of (p_id p) (links LINKS_PER_POST)))
                   /\ incoming_links r
                      = joined (sources_of (p_id p) (links LINKS_PER_POST)))
              df.
Proof.
  apply (report_counts_links (fun items => seq 0 (List.length items))
           ALL_POSTS LINKS_PER_POST init).
  discriminate.
Defined.

(** X23.  With an empty outgoing-link map, every row of the report has both
    counts 0 and both texts empty. *)
Theorem report_without_links (argsort : list Z -> list nat) (all_posts : list post)
        (st : state) :
  all_posts <> [] ->
  exists incoming df,
    calculate_incoming_links all_posts [] st = (Ok incoming, st)
    /\ build_dataframe argsort all_posts [] incoming = Ok df
    /\ Forall (fun r => outgoing_count r = 0%Z
                        /\ outgoing_links r = EmptyString
                        /\ incoming_count r = 0%Z
                        /\ incoming_links r = EmptyString)
              df.
Proof.
  intros H.
  destruct (incoming_characterised all_posts [] st) as (inc & R & _ & G & _).
  destruct (report_rows_of_articles argsort all_posts [] inc H) as (df & B & D).
  exists inc, df. split; [|split; [exact B|]].
  - rewrite R. cbn [links flat_map dangling filter map]. rewrite app_nil_r.
    now destruct st.
  - apply Forall_forall. intros r I. destruct (D r I) as (p & P & ->).
    unfold row_of. rewrite G, (known_In _ _ P). cbn. repeat split.
Qed.

(** The articles of the module and no link. *)
Lemma report_without_links_sample :
  exists incoming df,
    calculate_incoming_links ALL_POSTS [] init = (Ok incoming, init)
    /\ build_dataframe (fun items => seq 0 (List.length items))
                       ALL_POSTS [] incoming = Ok df
    /\ Forall (fun r => outgoing_count r = 0%Z
                        /\ outgoing_links r = EmptyString
                        /\ incoming_count r = 0%Z
                        /\ incoming_links r = EmptyString)
              df.
Proof.
  apply (report_without_links (fun items => seq 0 (List.length items))
           ALL_POSTS init).
  discriminate.
Defined.

End RowFacts.

(** ** What the parts of a run write and raise *)
Module EffectFacts.
Import LinkExtractor ApiClient DataProcessor Main EffectSpec.

Lemma exports_app (a b : list event) : exports (a ++ b) = exports a ++ exports b.
Proof. unfold exports. apply flat_map_app. Qed.

Lemma quiet_ret {A} (P : exn -> Prop) (a : A) : quiet P (ret a).
Proof. intros st. split; [reflexivity|discriminate]. Qed.

Lemma quiet_raise {A} (P : exn -> Prop) (e : exn) : P e -> quiet P (@raise A e).
Proof. intros H st. split; [reflexivity|]. cbn. intros e' [= <-]. exact H. Qed.

Lemma quiet_lift {A} (P : exn -> Prop) (r : result A) :
  (forall e, r = Raise e -> P e) -> quiet P (lift r).
Proof. intros H st. split; [reflexivity|exact H]. Qed.

Lemma quiet_log (P : exn -> Prop) (lv : level) (m : msg) : quiet P (log lv m).
Proof.
  intros st. split; [|discriminate]. cbn. rewrite exports_app. cbn.
  apply app_nil_r.
Qed.

Lemma quiet_sleep (P : exn -> Prop) (seconds : Z) : quiet P (sleep seconds).
Proof.
  intros st. split; [|discriminate]. cbn. rewrite exports_app. cbn.
  apply app_nil_r.
Qed.

Lemma quiet_bind {A B} (P : exn -> Prop) (m : M A) (f : A -> M B) :
  quiet P m -> (forall a, quiet P (f a)) -> quiet P (bind m f).
Proof.
  intros Hm Hf st. unfold bind. destruct (Hm st) as [E R].
  destruct (m st) as [[a|e] st1]; cbn [fst snd] in *.
  - destruct (Hf a st1) as [E' R']. split; [congruence|exact R'].
  - split; [exact E|]. intros e' [= <-]. now apply R.
Qed.

Lemma quiet_try {A} (P Q : exn -> Prop) (m : M A) (handler : exn -> M A) :
  quiet Q m -> (forall e, quiet P (handler e)) -> quiet P (try_except m handler).
Proof.
  intros Hm Hh st. unfold try_except. destruct (Hm st) as [E R].
  destruct (m st) as [[a|e] st1]; cbn [fst snd] in *.
  - split; [exact E|discriminate].
  - destruct (Hh e st1) as [E' R']. split; [congruence|exact R'].
Qed.

Lemma quiet_weaken {A} (P Q : exn -> Prop) (m : M A) :
  (forall e, P e -> Q e) -> quiet P m -> quiet Q m.
Proof. intros H Hm st. destruct (Hm st) as [E R]. split; [exact E|auto]. Qed.

Lemma quiet_for_each {A S} (P : exn -> Prop) (f : A -> S -> M S) (l : list A) :
  (forall x acc, quiet P (f x acc)) -> forall acc, quiet P (for_each f l acc).
Proof.
  intros H. induction l as [|x l IH]; intros acc; cbn [for_each].
  - apply quiet_ret.
  - apply quiet_bind; [apply H|exact IH].
Qed.

(** A step of a sequence of records, sleeps and returns. *)
Ltac quiet_step :=
  first [ apply quiet_ret | apply quiet_log | apply quiet_sleep
        | apply quiet_bind; [|intros ?] ].

(** [x <- m ;; k]: the goal for [m], then the goal for [k] with [x] named. *)
Tactic Notation "quiet_bind" "as" ident(x) := apply quiet_bind; [|intros x].

Ltac quiet_steps := repeat quiet_step.

Section Requests.
Context {B : Type}.
Variable server : nat -> wp_url -> option (response B).

(** A request and its status check: no file, any exception. *)
Lemma quiet_answer (u : wp_url) :
  quiet (fun _ => True)
        (r <- requests_get server u ;; raise_for_status r ;; ret (Some r)).
Proof.
  intros st. split; [|trivial]. unfold bind, requests_get.
  destruct (server (sent st) u) as [r|]; [|reflexivity].
  unfold raise_for_status.
  destruct ((400 <=? status_code r)%Z && (status_code r <? 600)%Z); reflexivity.
Qed.

Lemma quiet_make_request_from (n : nat) (u : wp_url) (max_attempts : Z) :
  forall attempt, quiet never (make_request_from server n attempt u max_attempts).
Proof.
  induction n as [|n IH]; intros attempt; cbn [make_request_from].
  - apply quiet_ret.
  - apply (quiet_try never (fun _ => True)); [apply quiet_answer|].
    intros e. destruct (is_request_exception e); [|quiet_steps].
    quiet_bind as x; [apply quiet_log|].
    destruct (attempt <? max_attempts - 1)%Z; [|quiet_steps].
    quiet_bind as y; [apply quiet_log|]. quiet_bind as z; [apply quiet_sleep|].
    apply IH.
Qed.

Lemma quiet_make_request (u : wp_url) (max_attempts : Z) :
  quiet never (_make_request server u max_attempts).
Proof. apply quiet_make_request_from. Qed.

End Requests.

Section Site.
Variable listings : nat -> wp_url -> option (response listing).
Variable contents : nat -> wp_url -> option (response json).
Variable netloc_valid : string -> bool.

Lemma quiet_more_pages (base_url : string) (per_page : Z) (n : nat) :
  forall page all_posts,
    quiet never (more_pages listings n page base_url per_page all_posts).
Proof.
  induction n as [|n IH]; intros page all_posts; cbn [more_pages].
  - apply quiet_ret.
  - quiet_bind as x; [apply quiet_log|].
    quiet_bind as response; [apply quiet_make_request|].
    destruct response as [r|]; [|apply quiet_ret].
    destruct (negb (listing_truthy (body r))); [quiet_steps|].
    destruct (entries_of (body r)); [apply IH|unfold on_error; quiet_steps].
Qed.

Lemma quiet_get_all_posts (base_url : string) (per_page : Z) :
  quiet never (get_all_posts listings base_url per_page).
Proof.
  unfold get_all_posts. quiet_bind as x; [apply quiet_log|].
  quiet_bind as response; [apply quiet_make_request|].
  destruct response as [r|]; [|apply quiet_ret].
  apply (quiet_try never (fun _ => True)); [|intros e; unfold on_error; quiet_steps].
  quiet_bind as total_pages; [now apply quiet_lift|].
  destruct (negb (listing_truthy (body r))); [quiet_steps|].
  quiet_bind as entries; [now apply quiet_lift|].
  apply (quiet_weaken never); [intros e []|apply quiet_more_pages].
Qed.

Lemma quiet_get_post_content (base_url : string) (post_id : Z) :
  quiet never (get_post_content contents base_url post_id).
Proof.
  unfold get_post_content. quiet_bind as x; [apply quiet_log|].
  quiet_bind as response; [apply quiet_make_request|].
  destruct response as [r|]; [|apply quiet_ret].
  apply (quiet_try never (fun _ => True)).
  - quiet_bind as rendered; [now apply quiet_lift|].
    quiet_bind as content; [now apply quiet_lift|]. apply quiet_ret.
  - intros e. destruct e; quiet_steps.
Qed.

Lemma quiet_extract_internal_links (post_content : json) (base_url : string) :
  quiet never (extract_internal_links netloc_valid post_content base_url).
Proof.
  unfold extract_internal_links.
  apply (quiet_try never (fun _ => True)); [now apply quiet_lift|].
  intros e. quiet_steps.
Qed.

Lemma quiet_extract_acf_links (acf_data : json) (acf_field_name : string) :
  quiet never (extract_acf_links acf_data acf_field_name).
Proof.
  intros st. split.
  - apply (quiet_try (fun _ => True) (fun _ => True)); [now apply quiet_lift|].
    intros e. destruct e; quiet_steps; now apply quiet_raise.
  - intros e H.
    destruct (AcfSafety.extract_acf_links_total acf_data acf_field_name st)
      as (ids & st' & E & _).
    rewrite E in H. discriminate.
Qed.

Lemma quiet_lookup (what : endpoint) (base_url slug : string) :
  quiet (fun _ => True) (lookup listings what base_url slug).
Proof.
  intros st. split; [|trivial]. unfold lookup, bind, requests_get.
  destruct (listings (sent st) (BySlug what base_url slug)) as [r|]; [|reflexivity].
  unfold raise_for_status.
  destruct ((400 <=? status_code r)%Z && (status_code r <? 600)%Z); reflexivity.
Qed.

Lemma quiet_lookups (base_url slug : string) (ignore_non_posts : bool) :
  quiet (fun _ => True) (lookups listings base_url slug ignore_non_posts).
Proof.
  unfold lookups. quiet_bind as posts; [apply quiet_lookup|].
  destruct (listing_truthy posts);
    [quiet_bind as i; [now apply quiet_lift|apply quiet_ret]|].
  destruct (negb ignore_non_posts); [|quiet_steps].
  quiet_bind as pages; [apply quiet_lookup|].
  destruct (listing_truthy pages);
    [quiet_bind as i; [now apply quiet_lift|apply quiet_ret]|].
  quiet_bind as categories; [apply quiet_lookup|].
  destruct (listing_truthy categories);
    [quiet_bind as i; [now apply quiet_lift|apply quiet_ret]|].
  quiet_steps.
Qed.

Lemma quiet_resolve_from (base_url slug : string) (ignore_non_posts : bool)
      (max_attempts : Z) (n : nat) :
  forall attempt,
    quiet (eq (NameError "url"))
          (resolve_from listings n attempt base_url slug ignore_non_posts max_attempts).
Proof.
  induction n as [|n IH]; intros attempt; cbn [resolve_from].
  - apply quiet_ret.
  - apply (quiet_try _ (fun _ => True)); [apply quiet_lookups|].
    intros e. destruct (is_request_exception e); [|now apply quiet_raise].
    quiet_bind as x; [apply quiet_log|].
    destruct (attempt <? max_attempts - 1)%Z; [|quiet_steps].
    quiet_bind as y; [apply quiet_log|]. quiet_bind as z; [apply quiet_sleep|].
    apply IH.
Qed.

Lemma quiet_add_link (base_url : string) (ignore : bool) (all_posts : list post)
      (post_id : Z) (l : link) (links_per_post : PyDict.t (list Z)) :
  quiet (eq (NameError "url"))
        (add_link listings base_url ignore all_posts post_id l links_per_post).
Proof.
  unfold add_link. quiet_bind as linked_post_id.
  - destruct l; [apply quiet_resolve_from|apply quiet_ret].
  - destruct linked_post_id as [i|]; [|quiet_steps].
    destruct (is_true (Some i)); [|quiet_steps].
    destruct (existsb (Z.eqb i) (map p_id all_posts) || negb ignore); quiet_steps.
Qed.

Lemma quiet_add_post (base_url acf_field : string) (ignore : bool)
      (all_posts : list post) (p : post) (links_per_post : PyDict.t (list Z)) :
  quiet (eq (NameError "url"))
        (add_post listings contents netloc_valid base_url acf_field ignore
                  all_posts p links_per_post).
Proof.
  unfold add_post. quiet_bind as got.
  - apply (quiet_weaken never); [intros e []|apply quiet_get_post_content].
  - destruct got as [post_content acf_data]. quiet_bind as internal_links.
    + destruct (truthy post_content); [|quiet_steps].
      apply (quiet_weaken never); [intros e []|apply quiet_extract_internal_links].
    + quiet_bind as acf_links.
      * destruct (truthy acf_data); [|quiet_steps].
        apply (quiet_weaken never); [intros e []|apply quiet_extract_acf_links].
      * apply quiet_for_each. intros x acc. apply quiet_add_link.
Qed.

Lemma quiet_calculate_incoming_links (all_posts : list post)
      (links_per_post : PyDict.t (list Z)) :
  quiet never (calculate_incoming_links all_posts links_per_post).
Proof.
  unfold calculate_incoming_links. apply quiet_for_each. intros [post_id outgoing] acc.
  apply quiet_for_each. intros x d. unfold add_incoming.
  destruct (PyDict.mem x d); quiet_steps.
Qed.

End Site.

End EffectFacts.

(** ** The run of a site, and of all the sites *)
Module RunFacts.
Import LinkExtractor ApiClient DataProcessor Main EffectSpec EffectFacts RunSpec.
Import RetrySpec.

Section Run.
Variable CSV_FILENAME : string -> string.
Variable ACF_FIELD_NAME : string.
Variable IGNORE_NON_POSTS : bool.
Variable listings : nat -> wp_url -> option (response listing).
Variable contents : nat -> wp_url -> option (response json).
Variable netloc_valid : string -> bool.
Variable argsort : list Z -> list nat.
Variable to_csv : string -> list row -> option exn.

Local Abbreviation site_run :=
  (run_site CSV_FILENAME ACF_FIELD_NAME IGNORE_NON_POSTS
            listings contents netloc_valid argsort to_csv).
Local Abbreviation sites_run :=
  (run_sites CSV_FILENAME ACF_FIELD_NAME IGNORE_NON_POSTS
             listings contents netloc_valid argsort to_csv).
Local Abbreviation main_run sites :=
  (main sites CSV_FILENAME ACF_FIELD_NAME IGNORE_NON_POSTS
        listings contents netloc_valid argsort to_csv).

Lemma outcome_quiet (csv_filename : string) (m : M unit) :
  quiet (eq (NameError "url")) m -> outcome to_csv csv_filename m.
Proof.
  intros H st. destruct (H st) as [E R]. left. split; [exact E|].
  destruct (fst (m st)) as [[]|e]; [now left|]. right; left.
  now rewrite (R e eq_refl).
Qed.

Lemma outcome_bind {A} (csv_filename : string) (m : M A) (f : A -> M unit) :
  quiet (eq (NameError "url")) m ->
  (forall a, outcome to_csv csv_filename (f a)) ->
  outcome to_csv csv_filename (bind m f).
Proof.
  intros Hm Hf st. unfold bind. destruct (Hm st) as [E R].
  destruct (m st) as [[a|e] st1]; cbn [fst snd] in *.
  - rewrite <- E. apply Hf.
  - left. split; [exact E|]. right; left. now rewrite (R e eq_refl).
Qed.

Lemma outcome_export (csv_filename : string) (df : list row) (k : M unit) :
  quiet never k ->
  outcome to_csv csv_filename
          (match to_csv csv_filename df with
           | Some e => raise e
           | None => emit (Csv csv_filename df) ;; k
           end).
Proof.
  intros Hk st. destruct (to_csv csv_filename df) as [e|] eqn:T.
  - left. split; [reflexivity|]. right; right. now exists df, e.
  - right. exists df. split; [exact T|]. unfold bind, emit.
    match goal with |- context [k ?s] => destruct (Hk s) as [E R] end.
    destruct (k _) as [[[]|e] st1]; cbn [fst snd] in *.
    + split; [reflexivity|]. rewrite E. cbn [trace]. rewrite exports_app.
      reflexivity.
    + destruct (R e eq_refl).
Qed.

Lemma quiet_never {A} (P : exn -> Prop) (m : M A) : quiet never m -> quiet P m.
Proof. apply quiet_weaken. intros e []. Qed.

(** The run of a site ends in one of the two ways. *)
Lemma run_site_outcome (s : site) :
  outcome to_csv (CSV_FILENAME (name s)) (site_run s).
Proof.
  unfold run_site.
  apply outcome_bind; [apply quiet_log|intros _].
  apply outcome_bind; [apply quiet_log|intros _].
  apply outcome_bind; [apply quiet_never, quiet_get_all_posts|intros all_posts].
  destruct all_posts as [|p ps]; [apply outcome_quiet, quiet_log|].
  apply outcome_bind; [apply quiet_log|intros _].
  apply outcome_bind; [apply quiet_log|intros _].
  apply outcome_bind;
    [apply quiet_for_each; intros x acc; apply quiet_add_post|intros links_per_post].
  apply outcome_bind; [apply quiet_log|intros _].
  apply outcome_bind;
    [apply quiet_never, quiet_calculate_incoming_links|intros incoming].
  apply outcome_bind; [apply quiet_log|intros _].
  apply outcome_bind; [apply quiet_lift; discriminate|intros df].
  apply outcome_bind; [apply quiet_log|intros _].
  apply outcome_export, quiet_log.
Qed.


(** X25.  The run of a site that returns has written its file once, under the
    name of the site, or no file at all. *)
Theorem run_site_writes_one_file (s : site) (st st' : state) :
  site_run s st = (Ok tt, st') ->
  exports (trace st') = exports (trace st)
  \/ exists df,
       to_csv (CSV_FILENAME (name s)) df = None
       /\ exports (trace st') = exports (trace st) ++ [(CSV_FILENAME (name s), df)].
Proof.
  intros H. destruct (run_site_outcome s st) as [[E _]|(df & T & _ & E)];
    rewrite H in *; cbn [fst snd] in *; [now left|].
  right. now exists df.
Qed.

(** The files of the loop over the sites. *)
Lemma run_sites_exports (sites : list site) :
  forall st,
  exists files,
    exports (trace (snd (sites_run sites st))) = exports (trace st) ++ files
    /\ List.length files <= List.length sites
    /\ Forall (fun f => In (fst f) (csv_names CSV_FILENAME sites)) files.
Proof.
  unfold run_sites.
  induction sites as [|s sites IH]; intros st; cbn [for_each].
  - exists []. rewrite app_nil_r. repeat split; constructor.
  - unfold bind.
    destruct (run_site_outcome s st) as [[E _]|(df & _ & R & E)].
    + destruct (site_run s st) as [[[]|e] st1]; cbn [fst snd] in *.
      * destruct (IH st1) as (files & F & L & N). exists files. rewrite F, E.
        split; [reflexivity|]. split; [cbn [List.length]; lia|].
        revert N. apply Forall_impl. intros f I. now right.
      * exists []. rewrite app_nil_r. repeat split; [exact E|cbn; lia|constructor].
    + destruct (site_run s st) as [[[]|e] st1]; cbn [fst snd] in *;
        [|discriminate].
      destruct (IH st1) as (files & F & L & N).
      exists ((CSV_FILENAME (name s), df) :: files). rewrite F, E, <- app_assoc.
      split; [reflexivity|]. split; [cbn [List.length]; lia|].
      constructor; [now left|].
      revert N. apply Forall_impl. intros f I. now right.
Qed.

(** X26.  [main] returns, whatever the servers answer and whatever [to_csv]
    does.  It writes at most one file per site of [SITES], each under the
    name of a site. *)
Theorem main_writes_site_files (SITES : list site) (st : state) :
  exists st' files,
    main_run SITES st = (Ok tt, st')
    /\ exports (trace st') = exports (trace st) ++ files
    /\ List.length files <= List.length SITES
    /\ Forall (fun f => In (fst f) (csv_names CSV_FILENAME SITES)) files.
Proof.
  unfold main, try_except. unfold bind at 1, log at 1, emit at 1. unfold bind at 1.
  match goal with |- context [sites_run SITES ?s] =>
    destruct (run_sites_exports SITES s) as (files & F & L & N);
    destruct (sites_run SITES s) as [[[]|e] st1] end;
    cbn [fst snd trace] in F; rewrite exports_app in F; cbn [exports flat_map] in F;
    rewrite app_nil_r in F.
  - unfold log, emit. eexists; exists files. split; [reflexivity|]. cbn [trace].
    rewrite exports_app, F. cbn. rewrite app_nil_r. auto.
  - unfold log, emit. eexists; exists files. split; [reflexivity|]. cbn [trace].
    rewrite exports_app, F. cbn. rewrite app_nil_r. auto.
Qed.

End Run.


(** The second of the two sample sites: its report is written. *)
Lemma run_site_writes_one_file_sample :
  let st' := snd (run_site Samples.csv_name "related-posts" true
                           Samples.one_article Samples.plain_content
                           LinksSpec.any_netloc NumpySort.argsort
                           Samples.first_export_fails
                           (mkSite "https://second.example" "second" None None)
                           init) in
  exports (trace st') = exports (trace init)
  \/ exists df,
       Samples.first_export_fails (Samples.csv_name "second") df = None
       /\ exports (trace st')
          = exports (trace init) ++ [(Samples.csv_name "second", df)].
Proof.
  apply (run_site_writes_one_file Samples.csv_name "related-posts" true
           Samples.one_article Samples.plain_content
           LinksSpec.any_netloc NumpySort.argsort Samples.first_export_fails
           (mkSite "https://second.example" "second" None None) init).
  vm_compute. reflexivity.
Defined.

End RunFacts.

(** ** The outgoing-link map that the run of a site builds *)
Module LinkMapFacts.
Import LinkExtractor ApiClient DataProcessor Main PyDict PyDictFacts.
Import ReportSpec GraphSpec GraphFacts.

(** An invariant of the accumulator of a loop. *)
Lemma for_each_rel {A S} (R : S -> S -> Prop) (f : A -> S -> M S) :
  (forall s, R s s) ->
  (forall a b c, R a b -> R b c -> R a c) ->
  (forall x acc st acc' st', f x acc st = (Ok acc', st') -> R acc acc') ->
  forall l acc st acc' st', for_each f l acc st = (Ok acc', st') -> R acc acc'.
Proof.
  intros Hr Ht Hf. induction l as [|x l IH]; intros acc st acc' st';
    cbn [for_each].
  - intros [= <- _]. apply Hr.
  - unfold bind. destruct (f x acc st) as [[acc1|e] st1] eqn:E; [|discriminate].
    intros H. exact (Ht _ _ _ (Hf _ _ _ _ _ E) (IH _ _ _ _ H)).
Qed.

Lemma targets_known_set (all_posts : list post) (k : Z) (d : PyDict.t (list Z)) :
  targets_known all_posts d = true -> targets_known all_posts (set k [] d) = true.
Proof.
  unfold targets_known. induction d as [|[k0 l] d IH]; cbn [set forallb snd].
  - reflexivity.
  - intros H. apply andb_prop in H. destruct H as [H1 H2].
    destruct (k =? k0)%Z; cbn [forallb snd]; [exact H2|].
    now rewrite H1, IH.
Qed.

Lemma targets_known_append (all_posts : list post) (k i : Z)
      (d : PyDict.t (list Z)) :
  known all_posts i = true ->
  targets_known all_posts d = true ->
  targets_known all_posts (append k i d) = true.
Proof.
  intros Hi. unfold targets_known.
  induction d as [|[k0 l] d IH]; cbn [append forallb snd]; [reflexivity|].
  intros H. apply andb_prop in H. destruct H as [H1 H2].
  destruct (k =? k0)%Z; cbn [forallb snd].
  - rewrite forallb_app, H1, H2. cbn [forallb]. fold (known all_posts i).
    now rewrite Hi.
  - now rewrite H1, IH.
Qed.

Lemma targets_known_dangling (all_posts : list post) (d : PyDict.t (list Z)) :
  targets_known all_posts d = true -> dangling all_posts (links d) = [].
Proof.
  unfold targets_known, dangling.
  induction d as [|[k l] d IH]; cbn [forallb links flat_map fst snd]; [reflexivity|].
  intros H. apply andb_prop in H. destruct H as [H1 H2]. fold (links d).
  rewrite filter_app, (IH H2), app_nil_r. clear IH H2.
  induction l as [|t l IH]; [reflexivity|]. cbn [forallb] in H1.
  apply andb_prop in H1. destruct H1 as [Ht Hl]. cbn [map filter snd].
  unfold known at 1. rewrite Ht. cbn [negb]. now apply IH.
Qed.

Lemma filter_none_all {A} (f : A -> bool) (l : list A) :
  filter (fun x => negb (f x)) l = [] -> filter f l = l.
Proof.
  induction l as [|x l IH]; [reflexivity|]. cbn [filter].
  destruct (f x); cbn [negb]; [|discriminate]. intros H. f_equal. now apply IH.
Qed.

Section Site.
Variable listings : nat -> wp_url -> option (response listing).
Variable contents : nat -> wp_url -> option (response json).
Variable netloc_valid : string -> bool.
Variables (base_url acf_field : string) (ignore : bool) (all_posts : list post).

(** What a step of the loops keeps: the keys, and with [ignore_non_posts]
    the fact that the targets are articles. *)
Local Abbreviation kept d d' :=
  ((forall k, mem k d' = mem k d)
   /\ (ignore = true -> targets_known all_posts d = true ->
       targets_known all_posts d' = true)).

Lemma add_link_keeps (post_id : Z) (l : link) (d d' : PyDict.t (list Z))
      (st st' : state) :
  add_link listings base_url ignore all_posts post_id l d st = (Ok d', st') ->
  kept d d'.
Proof.
  unfold add_link, bind.
  destruct (linked_id listings base_url ignore l st) as [[[i|]|e] st1];
    [| |discriminate].
  - destruct (is_true (Some i)).
    + destruct (existsb (Z.eqb i) (map p_id all_posts)) eqn:K; cbn [orb].
      * intros [= <- _]. split; [intros k; apply mem_append|].
        intros _. now apply targets_known_append.
      * destruct ignore; cbn [negb].
        -- unfold log, emit, ret. intros [= <- _]. now split.
        -- intros [= <- _]. split; [intros k; apply mem_append|discriminate].
    + unfold log, emit, ret. intros [= <- _]. now split.
  - unfold log, emit, ret. intros [= <- _]. now split.
Qed.

Lemma add_links_keep (post_id : Z) (ls : list link) (d d' : PyDict.t (list Z))
      (st st' : state) :
  for_each (add_link listings base_url ignore all_posts post_id) ls d st
  = (Ok d', st') ->
  kept d d'.
Proof.
  apply (for_each_rel (fun d d' => kept d d')).
  - now split.
  - intros a b c [M1 T1] [M2 T2]. split; [intros k; now rewrite M2|auto].
  - intros x acc s acc' s'. apply add_link_keeps.
Qed.

Lemma add_post_keeps (p : post) (d d' : PyDict.t (list Z)) (st st' : state) :
  add_post listings contents netloc_valid base_url acf_field ignore all_posts p d st
  = (Ok d', st') ->
  (forall k, mem k d' = (k =? p_id p)%Z || mem k d)
  /\ (ignore = true -> targets_known all_posts d = true ->
      targets_known all_posts d' = true).
Proof.
  unfold add_post. unfold bind at 1.
  destruct (get_post_content contents base_url (p_id p) st)
    as [[[post_content acf_data]|e] st1]; [|discriminate].
  unfold bind at 1.
  match goal with |- context [match ?m st1 with _ => _ end] =>
    destruct (m st1) as [[internal_links|e] st2]; [|discriminate] end.
  unfold bind at 1.
  match goal with |- context [match ?m st2 with _ => _ end] =>
    destruct (m st2) as [[acf_links|e] st3]; [|discriminate] end.
  intros H. apply add_links_keep in H. destruct H as [Hm Ht].
  split.
  - intros k. now rewrite Hm, mem_set.
  - intros I T. apply (Ht I). now apply targets_known_set.
Qed.

Lemma add_posts_keep (ps : list post) :
  forall (d d' : PyDict.t (list Z)) (st st' : state),
    for_each (add_post listings contents netloc_valid base_url acf_field ignore
                       all_posts) ps d st = (Ok d', st') ->
    (forall k, mem k d' = known ps k || mem k d)
    /\ (ignore = true -> targets_known all_posts d = true ->
        targets_known all_posts d' = true).
Proof.
  induction ps as [|p ps IH]; intros d d' st st'; cbn [for_each].
  - intros [= <- _]. now split.
  - unfold bind.
    destruct (add_post _ _ _ _ _ _ _ p d st) as [[d1|e] st1] eqn:E; [|discriminate].
    intros H. apply add_post_keeps in E. destruct E as [M1 T1].
    apply IH in H. destruct H as [M2 T2]. split; [|auto].
    intros k. rewrite M2, M1. unfold known. cbn [map existsb].
    destruct (k =? p_id p)%Z, (existsb (Z.eqb k) (map p_id ps)); reflexivity.
Qed.

(** X27.  The loop of [main] over the articles, when it completes, leaves an
    outgoing-link map with one key per article and no other key: an
    article without links has its (empty) entry. *)
Theorem link_map_keys (links_per_post : PyDict.t (list Z)) (st st' : state) :
  for_each (add_post listings contents netloc_valid base_url acf_field ignore
                     all_posts) all_posts [] st = (Ok links_per_post, st') ->
  forall k, mem k links_per_post = known all_posts k.
Proof.
  intros H k. apply add_posts_keep in H. destruct H as [M _].
  rewrite M. apply orb_false_r.
Qed.

End Site.

(** X28.  With [ignore_non_posts] set, the outgoing-link map that the loop of
    [main] over the articles builds has articles as its only targets:
    [calculate_incoming_links] then logs no warning, and its result holds
    as many entries as the map has links. *)
Theorem ignored_links_conserved
        (listings : nat -> wp_url -> option (response listing))
        (contents : nat -> wp_url -> option (response json))
        (netloc_valid : string -> bool) (base_url acf_field : string)
        (all_posts : list post) (links_per_post : PyDict.t (list Z))
        (st st1 : state) :
  for_each (add_post listings contents netloc_valid base_url acf_field true
                     all_posts) all_posts [] st = (Ok links_per_post, st1) ->
  targets_known all_posts links_per_post = true
  /\ exists incoming,
       calculate_incoming_links all_posts links_per_post st1 = (Ok incoming, st1)
       /\ total_links incoming = total_links links_per_post.
Proof.
  intros H. apply add_posts_keep in H. destruct H as [_ T].
  specialize (T eq_refl eq_refl). split; [exact T|].
  destruct (incoming_characterised all_posts links_per_post st1)
    as (inc & R & _ & _ & C).
  exists inc. split.
  - rewrite R, (targets_known_dangling _ _ T). cbn [map]. rewrite app_nil_r.
    now destruct st1.
  - rewrite C, total_links_links. f_equal.
    apply (filter_none_all (fun l => known all_posts (snd l))).
    exact (targets_known_dangling _ _ T).
Qed.

(** One article whose field names itself and an unknown identifier: the
    article is a key, the unknown identifier is a target and no key. *)
Lemma link_map_keys_sample :
  mem 1 [(1%Z, [1%Z; 9%Z])] = known [Post 1 "one"] 1
  /\ mem 9 [(1%Z, [1%Z; 9%Z])] = known [Post 1 "one"] 9.
Proof.
  split;
    apply (link_map_keys Samples.page_only SiteSamples.with_related
             LinksSpec.any_netloc "https://example.com" "related-posts" false
             [Post 1 "one"] [(1%Z, [1%Z; 9%Z])] init
             (snd (SiteSamples.one_article_links false init)));
    vm_compute; reflexivity.
Defined.

(** The same article with [ignore_non_posts]: the identifier 9 is left out. *)
Lemma ignored_links_conserved_sample :
  let st1 := snd (SiteSamples.one_article_links true init) in
  targets_known [Post 1 "one"] [(1%Z, [1%Z])] = true
  /\ exists incoming,
       calculate_incoming_links [Post 1 "one"] [(1%Z, [1%Z])] st1 = (Ok incoming, st1)
       /\ total_links incoming = total_links [(1%Z, [1%Z])].
Proof.
  apply (ignored_links_conserved Samples.page_only SiteSamples.with_related
           LinksSpec.any_netloc "https://example.com" "related-posts"
           [Post 1 "one"] [(1%Z, [1%Z])] init).
  vm_compute. reflexivity.
Defined.

End LinkMapFacts.

(** ** A site that cannot be reached *)
Module SkipFacts.
Import ApiClient Main RetrySpec RetryFacts EffectSpec EffectFacts.

Section Run.
Variable CSV_FILENAME : string -> string.
Variable ACF_FIELD_NAME : string.
Variable IGNORE_NON_POSTS : bool.
Variable listings : nat -> wp_url -> option (response listing).
Variable contents : nat -> wp_url -> option (response json).
Variable netloc_valid : string -> bool.
Variable argsort : list Z -> list nat.
Variable to_csv : string -> list row -> option exn.

Local Abbreviation site_run :=
  (run_site CSV_FILENAME ACF_FIELD_NAME IGNORE_NON_POSTS
            listings contents netloc_valid argsort to_csv).
Local Abbreviation sites_run :=
  (run_sites CSV_FILENAME ACF_FIELD_NAME IGNORE_NON_POSTS
             listings contents netloc_valid argsort to_csv).

(** Three requests for the first page, none answered. *)
Lemma get_all_posts_unreachable (base_url : string) (per_page : Z) (st : state) :
  (forall k, k < 3 ->
             answered listings (PostsPage base_url per_page 1) (sent st + k) = false) ->
  exists st',
    get_all_posts listings base_url per_page st = (Ok [], st')
    /\ sent st' = sent st + 3
    /\ sleeps (trace st') = sleeps (trace st) ++ [1; 2]%Z
    /\ exports (trace st') = exports (trace st).
Proof.
  intros Hf.
  destruct (make_request_from_gives_up listings (PostsPage base_url per_page 1) 3 2 0%Z
              (mkState (sent st)
                       (trace st
                        ++ [Log INFO (ApiRequest (PostsPage base_url per_page 1))])))
    as (st1 & E & S1 & Z1);
    [lia|reflexivity|intros k Hk; apply Hf; lia|].
  assert (R : get_all_posts listings base_url per_page st = (Ok [], st1)).
  { unfold get_all_posts. unfold bind at 1, log at 1, emit at 1. unfold bind at 1.
    unfold _make_request. change (Z.to_nat 3) with 3. now rewrite E. }
  destruct (quiet_get_all_posts listings base_url per_page st) as [X _].
  rewrite R in X. cbn [snd] in X.
  exists st1. split; [exact R|].
  cbn [sent trace] in S1, Z1. rewrite sleeps_app in Z1. cbn in Z1.
  rewrite app_nil_r in Z1. repeat split; [lia|exact Z1|exact X].
Qed.

(** X29.  A site whose server leaves the three requests for the first page of
    the directory unanswered is skipped: its run returns after these three
    requests and two sleeps, of 1 and 2 seconds, no article is fetched,
    no file is written, and the loop goes on with the next site. *)
Theorem unreachable_site_is_skipped (s : site) (st : state) :
  (forall k, k < 3 ->
             answered listings (PostsPage (url s) 100 1) (sent st + k) = false) ->
  exists st',
    site_run s st = (Ok tt, st')
    /\ sent st' = sent st + 3
    /\ sleeps (trace st') = sleeps (trace st) ++ [1; 2]%Z
    /\ exports (trace st') = exports (trace st)
    /\ forall rest, sites_run (s :: rest) st = sites_run rest st'.
Proof.
  intros Hf.
  pose (st0 := mkState (sent st)
                       ((trace st ++ [Log INFO (SiteStart (url s))])
                        ++ [Log INFO (FetchingPosts (url s))])).
  destruct (get_all_posts_unreachable (url s) 100 st0 Hf) as (st1 & E & S1 & Z1 & X1).
  assert (R : site_run s st
              = (Ok tt, mkState (sent st1)
                                (trace st1 ++ [Log ERROR (NoPostList (url s))]))).
  { unfold run_site. unfold bind at 1, log at 1, emit at 1.
    unfold bind at 1, log at 1, emit at 1. unfold bind at 1. cbn [sent trace].
    fold st0. rewrite E. reflexivity. }
  eexists. split; [exact R|]. cbn [sent trace].
  rewrite sleeps_app, exports_app, Z1, X1. subst st0. cbn [sent trace].
  rewrite !sleeps_app, !exports_app. cbn. rewrite !app_nil_r.
  repeat split; [exact S1|].
  intros rest. unfold run_sites. cbn [for_each]. unfold bind at 1. now rewrite R.
Qed.

End Run.

(** A server that is down, and then the second sample site. *)
Lemma unreachable_site_is_skipped_sample :
  exists st',
    run_site Samples.csv_name "related-posts" true SiteSamples.down
             Samples.plain_content LinksSpec.any_netloc NumpySort.argsort
             Samples.first_export_fails
             (mkSite "https://first.example" "first" None None) init
    = (Ok tt, st')
    /\ sent st' = 3
    /\ sleeps (trace st') = [1; 2]%Z
    /\ exports (trace st') = []
    /\ forall rest,
         run_sites Samples.csv_name "related-posts" true SiteSamples.down
                   Samples.plain_content LinksSpec.any_netloc NumpySort.argsort
                   Samples.first_export_fails
                   (mkSite "https://first.example" "first" None None :: rest) init
         = run_sites Samples.csv_name "related-posts" true SiteSamples.down
                     Samples.plain_content LinksSpec.any_netloc NumpySort.argsort
                     Samples.first_export_fails rest st'.
Proof.
  apply (unreachable_site_is_skipped Samples.csv_name "related-posts" true
           SiteSamples.down Samples.plain_content LinksSpec.any_netloc
           NumpySort.argsort Samples.first_export_fails
           (mkSite "https://first.example" "first" None None) init).
  intros k Hk. reflexivity.
Defined.

End SkipFacts.
